(** * Collision-debug rendering: quad templates and circle batching

    A shallow embedding of [src/render/draw_collision_debug.js]
    (function [drawCollisionDebug]) and the properties of its static
    quad-template buffers, of its matrix re-projection and of its
    batch-packing loop.

    Conventions of the embedding.
    - JavaScript integers (loop counters, offsets, lengths) are [Z].
    - A typed array is a [list] of its elements, addressed by a [Z] index;
      a read outside the array yields [undefined] and a write outside the
      array is dropped, as ECMAScript specifies for integer-indexed
      objects.
    - A counted loop [for (let i = 0; i < N; i++) body] whose body does not
      assign [i] is a left fold of the body over [seqZ 0 N].
    - The [while] loop of the circle path takes fuel; the theorems give the
      fuel that is enough. *)

From Stdlib Require Import ZArith Lia Bool.
From stdpp Require Import base list list_numbers.

Open Scope Z_scope.

(** ** Typed arrays *)

Module TypedArray.

Definition in_bounds {A : Type} (a : list A) (i : Z) : bool :=
  (0 <=? i) && (i <? Z.of_nat (length a)).

(** [a[i]] as an rvalue; [undef] stands for what [undefined] becomes in
    the context of the read. *)
Definition get {A : Type} (undef : A) (a : list A) (i : Z) : A :=
  if in_bounds a i then default undef (a !! Z.to_nat i) else undef.

(** [a[i] = v]; the element conversion is applied by the caller. *)
Definition set {A : Type} (a : list A) (i : Z) (v : A) : list A :=
  if in_bounds a i then <[Z.to_nat i := v]> a else a.

Definition ToUint16 (v : Z) : Z := v mod 65536.
Definition ToInt16 (v : Z) : Z := (v + 32768) mod 65536 - 32768.

End TypedArray.

Import TypedArray.

(** ** The quad templates (lines 54-92) *)

Definition maxQuadsPerDrawCall : Z := 64.
Definition maxVerticesPerDrawCall : Z := maxQuadsPerDrawCall * 4.
Definition maxTrianglesPerDrawCall : Z := maxQuadsPerDrawCall * 2.

(** Modelled from the spec: the struct-array classes of [data/array_types]
    are not part of the sources at hand.  [new StructArrayLayout2i4()]
    followed by [resize(n)] and [_trim()] is an array of exactly [n]
    elements of two [int16] each, zero filled; its [int16] view therefore
    has [2 * n] entries. *)
Definition StructArrayLayout2i4 (n : Z) : list Z := replicate (Z.to_nat (n * 2)) 0.

(** Modelled from the spec: [new StructArrayLayout3ui6()] followed by
    [resize(n)] and [_trim()] is an array of exactly [n] elements
    (triangles) of three [uint16] each, zero filled; its [uint16] view has
    [3 * n] entries. *)
Definition StructArrayLayout3ui6 (n : Z) : list Z := replicate (Z.to_nat (n * 3)) 0.

(** Body of the loop at lines 64-67. *)
Definition vertex_body (int16 : list Z) (i : Z) : list Z :=
  let int16 := set int16 (i * 2 + 0) (ToInt16 i) in
  let int16 := set int16 (i * 2 + 1) (ToInt16 i) in
  int16.

Definition vertexBuffer2_array : list Z :=
  fold_left vertex_body (seqZ 0 maxVerticesPerDrawCall)
            (StructArrayLayout2i4 maxVerticesPerDrawCall).

(** Body of the loop at lines 80-89. *)
Definition index_body (uint16 : list Z) (i : Z) : list Z :=
  let idx := i * 6 in
  let uint16 := set uint16 (idx + 0) (ToUint16 (i * 4 + 0)) in
  let uint16 := set uint16 (idx + 1) (ToUint16 (i * 4 + 1)) in
  let uint16 := set uint16 (idx + 2) (ToUint16 (i * 4 + 2)) in
  let uint16 := set uint16 (idx + 3) (ToUint16 (i * 4 + 2)) in
  let uint16 := set uint16 (idx + 4) (ToUint16 (i * 4 + 3)) in
  let uint16 := set uint16 (idx + 5) (ToUint16 (i * 4 + 0)) in
  uint16.

Definition indexBuffer2_array : list Z :=
  fold_left index_body (seqZ 0 maxTrianglesPerDrawCall)
            (StructArrayLayout3ui6 maxTrianglesPerDrawCall).

(** Triangle [t] of an index array: the three [uint16] of element [t]. *)
Definition triangle (uint16 : list Z) (t : Z) : option (Z * Z * Z) :=
  if 0 <=? t then
    match uint16 !! Z.to_nat (3 * t), uint16 !! Z.to_nat (3 * t + 1),
          uint16 !! Z.to_nat (3 * t + 2) with
    | Some a, Some b, Some c => Some (a, b, c)
    | _, _, _ => None
    end
  else None.

Definition triangle_count (uint16 : list Z) : Z := Z.of_nat (length uint16) / 3.

(** The number of [uint16] entries of the index template. *)
Definition template_length : Z := maxTrianglesPerDrawCall * 3.

(** A vertex index of the template. *)
Definition is_template_vertex (v : Z) : Prop := 0 <= v < maxVerticesPerDrawCall.

(** The array after the first [k] iterations of the generation loop. *)
Definition index_array_after (k : Z) : list Z :=
  fold_left index_body (seqZ 0 k) (StructArrayLayout3ui6 maxTrianglesPerDrawCall).

(** ** External collaborators

    What the function uses and the sources at hand do not contain: the
    numeric types and the matrix product of the [gl-matrix] package. *)

Class Externals := {
  (** a 4x4 matrix as [gl-matrix] stores it *)
  mat4 : Type;
  (** [mat4.create()] *)
  mat4_create : mat4;
  (** [mat4.mul(out, a, b)]: the value left in [out], the product [a × b];
      the routine reads its operands before it writes, so [out] may be [a] *)
  mat4_mul : mat4 -> mat4 -> mat4;
  (** an element of a [Float32Array]; a read followed by a write into
      another [Float32Array] keeps the element *)
  f32 : Type;
  (** the content of a fresh [Float32Array] *)
  f32_zero : f32;
  (** what storing [undefined] leaves in a [Float32Array] *)
  f32_of_undefined : f32;
  (** a JavaScript number, for the translate offset *)
  number : Type;
  (** [x === 0] *)
  is_zero : number -> bool;
  (** a bucket's pre-built collision-box buffer set *)
  CollisionBuffers : Type
}.

Section Data.
Context `{Externals}.

(** [bucket.collisionCircleArrayTemp]: [length] circles, four floats each,
    in the [float32] view. *)
Record CollisionCircleArray := {
  arr_length : Z;
  float32 : list f32
}.

Record SymbolBucket := {
  textCollisionBox : option CollisionBuffers;
  iconCollisionBox : option CollisionBuffers;
  collisionCircleArrayTemp : CollisionCircleArray;
  placementInvProjMatrix : mat4;
  placementViewportMatrix : mat4
}.

(** A tile, seen through [tile.getBucket(layer)]. *)
Record Tile := { getBucket : option SymbolBucket }.

Record OverscaledTileID := { key : Z; posMatrix : mat4 }.

Inductive TranslateAnchor := anchor_map | anchor_viewport.

Record Transform := { glCoordMatrix : mat4; zoom : number }.

Record Painter := {
  transform : Transform;
  translatePosMatrix :
    mat4 -> Tile -> number * number -> TranslateAnchor -> mat4
}.

(** The two cached properties of the style layer. *)
Record Layer := {
  vertexBuffer2 : option (list Z);
  indexBuffer2 : option (list Z)
}.

Record Segment := {
  vertexOffset : Z;
  primitiveOffset : Z;
  vertexLength : Z;
  primitiveLength : Z
}.

Definition simpleSegment (vo po vl pl : Z) : Segment :=
  {| vertexOffset := vo; primitiveOffset := po;
     vertexLength := vl; primitiveLength := pl |}.

(** One [program.draw(context, gl.LINES, ...)] of the box path. *)
Record LinesDraw := {
  box_posMatrix : mat4;
  box_buffers : CollisionBuffers
}.

(** One [program2.draw(context, gl.TRIANGLES, ...)] of the circle path:
    the arguments of [collisionCircleUniformValues], the two template
    buffers and the segment.  [draw_quadProperties] is the content of the
    scratch array when the call is made. *)
Record TrianglesDraw := {
  draw_batchTransform : mat4;
  draw_batchInvTransform : mat4;
  draw_quadProperties : list f32;
  draw_layoutVertexBuffer : option (list Z);
  draw_indexBuffer : option (list Z);
  draw_segment : Segment
}.

(** The variables of the circle loop.  [copied] is a ghost log: the
    source indices [qIdx] read by lines 136-139, in execution order. *)
Record BatchState := {
  batchQuadIdx : Z;
  quadOffset : Z;
  quadProperties : list f32;
  drawn : list TrianglesDraw;
  copied : list Z
}.

(** What one call of [drawCollisionDebug] leaves behind. *)
Record Frame := {
  frame_lines : list LinesDraw;
  frame_triangles : list TrianglesDraw;
  frame_layer : Layer;
  frame_quadProperties : list f32;
  frame_copied : list Z
}.
End Data.

Section Program.
Context `{Externals}.

(** [translate[0] !== 0 || translate[1] !== 0] *)
Definition translated (translate : number * number) : bool :=
  negb (is_zero (fst translate)) || negb (is_zero (snd translate)).

(** Lines 32-35 and 113-116. *)
Definition tile_posMatrix (painter : Painter) (coord : OverscaledTileID)
    (tile : Tile) (translate : number * number)
    (translateAnchor : TranslateAnchor) : mat4 :=
  if translated translate
  then translatePosMatrix painter (posMatrix coord) tile translate translateAnchor
  else posMatrix coord.

(** *** The box path (lines 25-47) *)

Definition box_tile (painter : Painter) (translate : number * number)
    (translateAnchor : TranslateAnchor) (isText : bool)
    (coord : OverscaledTileID) (tile : Tile) : list LinesDraw :=
  match getBucket tile with
  | None => []
  | Some bucket =>
      match (if isText then textCollisionBox bucket
             else iconCollisionBox bucket) with
      | None => []
      | Some buffers =>
          [ {| box_posMatrix :=
                 tile_posMatrix painter coord tile translate translateAnchor;
               box_buffers := buffers |} ]
      end
  end.

(** *** The template buffers (lines 56-92) *)

Definition ensure_vertexBuffer2 (layer : Layer) : Layer :=
  match vertexBuffer2 layer with
  | Some _ => layer
  | None => {| vertexBuffer2 := Some vertexBuffer2_array;
               indexBuffer2 := indexBuffer2 layer |}
  end.

Definition ensure_indexBuffer2 (layer : Layer) : Layer :=
  match indexBuffer2 layer with
  | Some _ => layer
  | None => {| vertexBuffer2 := vertexBuffer2 layer;
               indexBuffer2 := Some indexBuffer2_array |}
  end.

(** *** The circle path (lines 100-206) *)

(** Line 100. *)
Definition new_quadProperties : list f32 :=
  replicate (Z.to_nat (maxQuadsPerDrawCall * 4)) f32_zero.

(** [arr.float32[i]], as the value a [Float32Array] keeps of it. *)
Definition circle_float (arr : CollisionCircleArray) (i : Z) : f32 :=
  get f32_of_undefined (float32 arr) i.

(** Lines 136-140, one iteration of the copy loop. *)
Definition copy_quad (arr : CollisionCircleArray)
    (st : list f32 * Z * list Z) (qIdx : Z) : list f32 * Z * list Z :=
  let '(quadProperties, batchQuadIdx, log) := st in
  let src := circle_float arr in
  let quadProperties := set quadProperties (batchQuadIdx * 4 + 0) (src (qIdx * 4 + 0)) in
  let quadProperties := set quadProperties (batchQuadIdx * 4 + 1) (src (qIdx * 4 + 1)) in
  let quadProperties := set quadProperties (batchQuadIdx * 4 + 2) (src (qIdx * 4 + 2)) in
  let quadProperties := set quadProperties (batchQuadIdx * 4 + 3) (src (qIdx * 4 + 3)) in
  (quadProperties, batchQuadIdx + 1, log ++ [qIdx]).

(** Line 132. *)
Definition batchSize (arr : CollisionCircleArray) (s : BatchState) : Z :=
  let quadsLeft := arr_length arr - quadOffset s in
  let quadSpaceInBatch := maxQuadsPerDrawCall - batchQuadIdx s in
  Z.min quadsLeft quadSpaceInBatch.

(** The copy loop of lines 135-141 after [k] of its iterations. *)
Definition copy_loop_upto (k : nat) (arr : CollisionCircleArray)
    (s : BatchState) : list f32 * Z * list Z :=
  fold_left (copy_quad arr)
            (take k (seqZ (quadOffset s) (batchSize arr s)))
            (quadProperties s, batchQuadIdx s, copied s).

(** Lines 130-143: the packing step. *)
Definition pack (arr : CollisionCircleArray) (s : BatchState) : BatchState :=
  let '(qp, b, log) :=
    fold_left (copy_quad arr)
              (seqZ (quadOffset s) (batchSize arr s))
              (quadProperties s, batchQuadIdx s, copied s) in
  {| batchQuadIdx := b;
     quadOffset := quadOffset s + batchSize arr s;
     quadProperties := qp;
     drawn := drawn s;
     copied := log |}.

(** Lines 147-171 and 180-204: one draw call for the batch in flight. *)
Definition draw_batch (layer : Layer) (batchTransform batchInvTransform : mat4)
    (s : BatchState) : TrianglesDraw :=
  {| draw_batchTransform := batchTransform;
     draw_batchInvTransform := batchInvTransform;
     draw_quadProperties := quadProperties s;
     draw_layoutVertexBuffer := vertexBuffer2 layer;
     draw_indexBuffer := indexBuffer2 layer;
     draw_segment :=
       simpleSegment 0 0 (batchQuadIdx s * 4) (batchQuadIdx s * 2) |}.

Definition emit (layer : Layer) (batchTransform batchInvTransform : mat4)
    (s : BatchState) : list TrianglesDraw :=
  drawn s ++ [draw_batch layer batchTransform batchInvTransform s].

(** Lines 145-174. *)
Definition flush_full (layer : Layer) (batchTransform batchInvTransform : mat4)
    (s : BatchState) : BatchState :=
  if batchQuadIdx s =? maxQuadsPerDrawCall then
    {| batchQuadIdx := 0;
       quadOffset := quadOffset s;
       quadProperties := quadProperties s;
       drawn := emit layer batchTransform batchInvTransform s;
       copied := copied s |}
  else s.

(** Lines 130-174: the body of the [while] loop. *)
Definition loop_body (layer : Layer) (batchTransform batchInvTransform : mat4)
    (arr : CollisionCircleArray) (s : BatchState) : BatchState :=
  flush_full layer batchTransform batchInvTransform (pack arr s).

(** Line 129. *)
Definition loop_guard (arr : CollisionCircleArray) (s : BatchState) : bool :=
  quadOffset s <? arr_length arr.

Fixpoint while_loop (fuel : nat) (layer : Layer)
    (batchTransform batchInvTransform : mat4)
    (arr : CollisionCircleArray) (s : BatchState) : option BatchState :=
  match fuel with
  | O => None
  | S fuel =>
      if loop_guard arr s
      then while_loop fuel layer batchTransform batchInvTransform arr
             (loop_body layer batchTransform batchInvTransform arr s)
      else Some s
  end.

(** Lines 178-205: the leftover batch. *)
Definition leftover (layer : Layer) (batchTransform batchInvTransform : mat4)
    (s : BatchState) : BatchState :=
  if negb (batchQuadIdx s =? 0) then
    {| batchQuadIdx := batchQuadIdx s;
       quadOffset := quadOffset s;
       quadProperties := quadProperties s;
       drawn := emit layer batchTransform batchInvTransform s;
       copied := copied s |}
  else s.

(** Lines 120-124. *)
Definition reproject (bucket : SymbolBucket) (painter : Painter) : mat4 :=
  let batchInvTransform := mat4_create in
  let batchInvTransform :=
    mat4_mul (placementInvProjMatrix bucket) (glCoordMatrix (transform painter)) in
  let batchInvTransform :=
    mat4_mul batchInvTransform (placementViewportMatrix bucket) in
  batchInvTransform.

(** Lines 126-127, with the scratch array as the previous tiles left it. *)
Definition enter (scratch : list f32) : BatchState :=
  {| batchQuadIdx := 0; quadOffset := 0; quadProperties := scratch;
     drawn := []; copied := [] |}.

(** Lines 103-205: the circle path of one tile.  The result is the state
    at the end of the iteration of the tile loop: the draw calls of the
    tile in [drawn], the scratch array in [quadProperties]. *)
Definition circle_tile (fuel : nat) (painter : Painter) (layer : Layer)
    (translate : number * number) (translateAnchor : TranslateAnchor)
    (scratch : list f32) (coord : OverscaledTileID) (tile : Tile)
    : option BatchState :=
  match getBucket tile with
  | None => Some (enter scratch)
  | Some bucket =>
      let arr := collisionCircleArrayTemp bucket in
      if arr_length arr =? 0 then Some (enter scratch)
      else
        let posMatrix :=
          tile_posMatrix painter coord tile translate translateAnchor in
        let batchInvTransform := reproject bucket painter in
        let batchTransform := posMatrix in
        s ← while_loop fuel layer batchTransform batchInvTransform arr
              (enter scratch);
        Some (leftover layer batchTransform batchInvTransform s)
  end.

(** The tile loop of lines 102-206. *)
Fixpoint circle_tiles (fuel : nat) (painter : Painter)
    (sourceCache : OverscaledTileID -> Tile) (layer : Layer)
    (translate : number * number) (translateAnchor : TranslateAnchor)
    (coords : list OverscaledTileID)
    (acc : list TrianglesDraw * list f32 * list Z)
    : option (list TrianglesDraw * list f32 * list Z) :=
  match coords with
  | [] => Some acc
  | coord :: coords =>
      let '(draws, scratch, log) := acc in
      s ← circle_tile fuel painter layer translate translateAnchor scratch
            coord (sourceCache coord);
      circle_tiles fuel painter sourceCache layer translate translateAnchor
        coords (draws ++ drawn s, quadProperties s, log ++ copied s)
  end.

(** The tile loop of lines 25-47. *)
Definition box_tiles (painter : Painter)
    (sourceCache : OverscaledTileID -> Tile)
    (translate : number * number) (translateAnchor : TranslateAnchor)
    (isText : bool) (coords : list OverscaledTileID) : list LinesDraw :=
  flat_map (fun coord =>
              box_tile painter translate translateAnchor isText coord
                (sourceCache coord))
           coords.

Definition drawCollisionDebug (fuel : nat) (painter : Painter)
    (sourceCache : OverscaledTileID -> Tile) (layer : Layer)
    (coords : list OverscaledTileID) (translate : number * number)
    (translateAnchor : TranslateAnchor) (isText : bool) : option Frame :=
  let lines := box_tiles painter sourceCache translate translateAnchor isText coords in
  let layer := ensure_vertexBuffer2 layer in
  let layer := ensure_indexBuffer2 layer in
  let quadProperties := new_quadProperties in
  '(draws, scratch, log) ←
    circle_tiles fuel painter sourceCache layer translate translateAnchor
      coords ([], quadProperties, []);
  Some {| frame_lines := lines; frame_triangles := draws;
          frame_layer := layer; frame_quadProperties := scratch;
          frame_copied := log |}.
End Program.

(** ** Vocabulary of the statements *)

(** [count] full batches, the first at circle [off]. *)
Fixpoint full_batches (count : nat) (off : Z) : list (Z * Z) :=
  match count with
  | O => []
  | S count => (off, maxQuadsPerDrawCall) :: full_batches count (off + maxQuadsPerDrawCall)
  end.

(** The batches the specification gives for [n] circles: [n / 64] full
    ones, then one of [n mod 64] circles when that is not zero. *)
Definition spec_batches (n : Z) : list (Z * Z) :=
  full_batches (Z.to_nat (n / maxQuadsPerDrawCall)) 0
  ++ (if 0 <? n mod maxQuadsPerDrawCall
      then [(n / maxQuadsPerDrawCall * maxQuadsPerDrawCall, n mod maxQuadsPerDrawCall)]
      else []).

(** [ceil(n / 64)] *)
Definition spec_draw_calls (n : Z) : Z :=
  (n + (maxQuadsPerDrawCall - 1)) / maxQuadsPerDrawCall.

Section Vocabulary.
Context `{Externals}.

(** The states in which the guard of the [while] loop (line 129) is
    evaluated, for one tile. *)
Inductive loop_top (layer : Layer) (batchTransform batchInvTransform : mat4)
    (arr : CollisionCircleArray) (scratch : list f32) : BatchState -> Prop :=
| loop_top_enter :
    loop_top layer batchTransform batchInvTransform arr scratch (enter scratch)
| loop_top_next s :
    loop_top layer batchTransform batchInvTransform arr scratch s ->
    loop_guard arr s = true ->
    loop_top layer batchTransform batchInvTransform arr scratch
      (loop_body layer batchTransform batchInvTransform arr s).

(** The number of quads a draw call covers: two triangles per quad. *)
Definition draw_quads (d : TrianglesDraw) : Z :=
  primitiveLength (draw_segment d) / 2.

(** The draw call [d] is the batch of the [size] circles that start at
    circle [off] of [arr]: the transforms and the template buffers are
    those of the tile and the layer, the segment is
    [simpleSegment(0, 0, size * 4, size * 2)], the scratch array is passed
    whole and its first [size * 4] floats are those of the circles, in
    the order and the field order of the array. *)
Definition batch_of (layer : Layer) (batchTransform batchInvTransform : mat4)
    (arr : CollisionCircleArray) (d : TrianglesDraw) (window : Z * Z) : Prop :=
  let '(off, size) := window in
  draw_batchTransform d = batchTransform /\
  draw_batchInvTransform d = batchInvTransform /\
  draw_layoutVertexBuffer d = vertexBuffer2 layer /\
  draw_indexBuffer d = indexBuffer2 layer /\
  draw_segment d = simpleSegment 0 0 (size * 4) (size * 2) /\
  Z.of_nat (length (draw_quadProperties d)) = maxQuadsPerDrawCall * 4 /\
  forall k j : Z, 0 <= k < size -> 0 <= j < 4 ->
    draw_quadProperties d !! Z.to_nat (k * 4 + j)
    = Some (circle_float arr ((off + k) * 4 + j)).
(** The circle path of a tile without a bucket or without circles. *)
Definition nothing_to_batch (tile : Tile) : Prop :=
  match getBucket tile with
  | None => True
  | Some bucket => arr_length (collisionCircleArrayTemp bucket) = 0
  end.

(** The draw calls [ds] are those the specification gives for the tile at
    [coord]: none without a bucket, the batches of its circles otherwise. *)
Definition tile_batches (painter : Painter)
    (sourceCache : OverscaledTileID -> Tile) (layer : Layer)
    (translate : number * number) (translateAnchor : TranslateAnchor)
    (coord : OverscaledTileID) (ds : list TrianglesDraw) : Prop :=
  match getBucket (sourceCache coord) with
  | None => ds = []
  | Some bucket =>
      Forall2 (batch_of layer
                 (tile_posMatrix painter coord (sourceCache coord) translate
                    translateAnchor)
                 (reproject bucket painter)
                 (collisionCircleArrayTemp bucket))
              ds (spec_batches (arr_length (collisionCircleArrayTemp bucket)))
  end.
End Vocabulary.

(** ** An exact-arithmetic instance

    Integers for every number, lists of sixteen integers (column major, as
    [gl-matrix] stores them) for matrices.  It is used to run the
    definitions on concrete tiles. *)

Module ZModel.

Definition entry (a : list Z) (i : nat) : Z := nth i a 0.

(** The formula of [mat4.multiply]: [out[4c + r] = Σ_k b[4c + k] * a[4k + r]]. *)
Definition mul (a b : list Z) : list Z :=
  map (fun i : nat =>
         let c := (i / 4)%nat in
         let r := (i mod 4)%nat in
         entry b (4 * c + 0) * entry a (0 + r)
         + entry b (4 * c + 1) * entry a (4 + r)
         + entry b (4 * c + 2) * entry a (8 + r)
         + entry b (4 * c + 3) * entry a (12 + r))
      (seq 0 16).

Definition identity : list Z :=
  [1; 0; 0; 0;  0; 1; 0; 0;  0; 0; 1; 0;  0; 0; 0; 1].

(** The formula of [mat4.translate(out, a, [x, y, z])]. *)
Definition translate3 (a : list Z) (x y z : Z) : list Z :=
  take 12 a ++
  map (fun r : nat =>
         entry a r * x + entry a (4 + r) * y + entry a (8 + r) * z
         + entry a (12 + r))
      (seq 0 4).

Definition ZExternals : Externals :=
  {| mat4 := list Z;
     mat4_create := identity;
     mat4_mul := mul;
     f32 := Z;
     f32_zero := 0;
     f32_of_undefined := -1;
     number := Z;
     is_zero := fun x => x =? 0;
     CollisionBuffers := Z |}.

#[local] Existing Instance ZExternals.

(** A painter whose [translatePosMatrix] translates by the offset itself
    (unit pixel-to-tile scale, zero bearing). *)
Definition painter (gl : list Z) : Painter :=
  {| transform := {| glCoordMatrix := gl; zoom := 0 |};
     translatePosMatrix := fun m _ t _ => translate3 m (fst t) (snd t) 0 |}.

(** A circle array of [n] circles whose floats are [1000, 1001, ...]. *)
Definition circles (n : Z) : CollisionCircleArray :=
  {| arr_length := n; float32 := (fun i => 1000 + i) <$> seqZ 0 (4 * n) |}.

Definition scaling (k : Z) : list Z :=
  [k; 0; 0; 0;  0; k; 0; 0;  0; 0; k; 0;  0; 0; 0; 1].

Definition bucket (n : Z) : SymbolBucket :=
  {| textCollisionBox := Some 7;
     iconCollisionBox := None;
     collisionCircleArrayTemp := circles n;
     placementInvProjMatrix := scaling 2;
     placementViewportMatrix := translate3 identity 5 6 0 |}.

Definition tile (n : Z) : Tile := {| getBucket := Some (bucket n) |}.
Definition no_bucket : Tile := {| getBucket := None |}.

Definition coord : OverscaledTileID :=
  {| key := 1; posMatrix := scaling 3 |}.

Definition fresh_layer : Layer :=
  {| vertexBuffer2 := None; indexBuffer2 := None |}.

Definition ready_layer : Layer :=
  ensure_indexBuffer2 (ensure_vertexBuffer2 fresh_layer).

(** The circle path of [coord] over a tile of [n] circles, from a fresh
    scratch array, in viewport anchor space. *)
Abbreviation run translate n :=
  (circle_tile 200 (painter identity) ready_layer translate anchor_viewport
     new_quadProperties coord (tile n)).

End ZModel.

(** ** Vocabulary of the statements about whole frames *)

Definition Zsum (l : list Z) : Z := foldr Z.add 0 l.

(** The quad of triangle [t] of an index array: the quad all three of its
    vertices belong to, four vertices to a quad, if there is one. *)
Definition triangle_quad (uint16 : list Z) (t : Z) : option Z :=
  match triangle uint16 t with
  | Some (a, b, c) =>
      if (a / 4 =? b / 4) && (b / 4 =? c / 4) then Some (a / 4) else None
  | None => None
  end.

Section FrameVocabulary.
Context `{Externals}.

(** The circle draw calls the specification gives for the tile at [coord]. *)
Definition tile_draw_count (sourceCache : OverscaledTileID -> Tile)
    (coord : OverscaledTileID) : Z :=
  match getBucket (sourceCache coord) with
  | None => 0
  | Some bucket => spec_draw_calls (arr_length (collisionCircleArrayTemp bucket))
  end.
End FrameVocabulary.

(** Three tiles for the exact-arithmetic instance: 130 circles, no bucket,
    64 circles. *)
Module ZFrames.

#[local] Existing Instance ZModel.ZExternals.

Definition coord_at (k : Z) : OverscaledTileID :=
  {| key := k; posMatrix := ZModel.scaling 3 |}.

Definition cache (c : OverscaledTileID) : Tile :=
  if key c =? 1 then ZModel.tile 130
  else if key c =? 2 then ZModel.tile 64
  else ZModel.no_bucket.

Definition coords : list OverscaledTileID :=
  [coord_at 1; coord_at 3; coord_at 2].

End ZFrames.

(** * Properties *)

(** Linear arithmetic with the batch capacity unfolded and quotients and
    remainders by it turned into their equations. *)
Ltac quads_lia :=
  unfold maxQuadsPerDrawCall in *; Z.div_mod_to_equations; lia.

(** ** Typed arrays *)

Section TypedArrayFacts.
Context {A : Type}.
Implicit Types (a : list A) (i : Z) (v : A).

Lemma in_bounds_true a i :
  in_bounds a i = true <-> 0 <= i < Z.of_nat (length a).
Proof. unfold in_bounds. rewrite andb_true_iff, Z.leb_le, Z.ltb_lt. tauto. Qed.

Lemma in_bounds_false a i :
  in_bounds a i = false <-> i < 0 \/ Z.of_nat (length a) <= i.
Proof.
  unfold in_bounds. rewrite andb_false_iff, Z.leb_gt, Z.ltb_ge. tauto.
Qed.

Lemma length_set a i v : length (set a i v) = length a.
Proof. unfold set. destruct (in_bounds a i); [apply length_insert | done]. Qed.

Lemma set_out_of_bounds a i v :
  Z.of_nat (length a) <= i -> set a i v = a.
Proof.
  intros Hi. unfold set.
  destruct (in_bounds a i) eqn:Hb; [| done].
  apply in_bounds_true in Hb. lia.
Qed.

Lemma lookup_set_eq a i v :
  0 <= i < Z.of_nat (length a) -> set a i v !! Z.to_nat i = Some v.
Proof.
  intros Hi. unfold set.
  rewrite (proj2 (in_bounds_true a i) Hi).
  apply list_lookup_insert_eq. lia.
Qed.

Lemma lookup_set_ne a i v (n : nat) :
  Z.of_nat n <> i -> set a i v !! n = a !! n.
Proof.
  intros Hn. unfold set.
  destruct (in_bounds a i) eqn:Hb; [| done].
  apply in_bounds_true in Hb.
  apply list_lookup_insert_ne. lia.
Qed.

Lemma Forall_set (P : A -> Prop) a i v :
  Forall P a -> (in_bounds a i = true -> P v) -> Forall P (set a i v).
Proof.
  intros Ha Hv. unfold set.
  destruct (in_bounds a i); [| done].
  apply Forall_insert; auto.
Qed.

End TypedArrayFacts.

(** ** The index template *)

Lemma length_index_body uint16 i :
  length (index_body uint16 i) = length uint16.
Proof. unfold index_body. by rewrite !length_set. Qed.

(** An iteration past the last quad addresses only entries past the end of
    the array: it leaves the array as it is. *)
Lemma index_body_past_end uint16 i :
  Z.of_nat (length uint16) = template_length ->
  maxQuadsPerDrawCall <= i ->
  index_body uint16 i = uint16.
Proof.
  unfold template_length, maxTrianglesPerDrawCall, maxQuadsPerDrawCall.
  intros Hlen Hi. unfold index_body.
  rewrite !set_out_of_bounds; rewrite ?length_set; first done; lia.
Qed.

Lemma ToUint16_small v : 0 <= v < 65536 -> ToUint16 v = v.
Proof. intros Hv. unfold ToUint16. by apply Z.mod_small. Qed.

Lemma index_body_vertices uint16 i :
  0 <= i ->
  Z.of_nat (length uint16) = template_length ->
  Forall is_template_vertex uint16 ->
  Forall is_template_vertex (index_body uint16 i).
Proof.
  intros Hi Hlen Hall.
  destruct (Z_lt_le_dec i maxQuadsPerDrawCall) as [Hlt | Hge].
  - unfold maxQuadsPerDrawCall in Hlt. unfold index_body.
    repeat (apply Forall_set; [| intros _; rewrite ToUint16_small by lia;
      unfold is_template_vertex, maxVerticesPerDrawCall, maxQuadsPerDrawCall; lia]).
    done.
  - by rewrite index_body_past_end.
Qed.

Lemma index_loop_vertices (l : list Z) uint16 :
  Forall (fun i => 0 <= i) l ->
  Z.of_nat (length uint16) = template_length ->
  Forall is_template_vertex uint16 ->
  Z.of_nat (length (fold_left index_body l uint16)) = template_length /\
  Forall is_template_vertex (fold_left index_body l uint16).
Proof.
  intros Hl. revert uint16.
  induction Hl as [| i l Hi Hl IH]; intros uint16 Hlen Hall; simpl; [done |].
  apply IH.
  - by rewrite length_index_body.
  - by apply index_body_vertices.
Qed.

Lemma index_loop_past_end (l : list Z) uint16 :
  Forall (fun i => maxQuadsPerDrawCall <= i) l ->
  Z.of_nat (length uint16) = template_length ->
  fold_left index_body l uint16 = uint16.
Proof.
  intros Hl Hlen.
  induction Hl as [| i l Hi Hl IH]; simpl; [done |].
  by rewrite index_body_past_end.
Qed.

Lemma StructArrayLayout3ui6_spec n :
  0 <= n ->
  Z.of_nat (length (StructArrayLayout3ui6 n)) = n * 3 /\
  Forall (fun v => v = 0) (StructArrayLayout3ui6 n).
Proof.
  intros Hn. unfold StructArrayLayout3ui6. split.
  - rewrite length_replicate. lia.
  - apply Forall_replicate. done.
Qed.

Lemma seqZ_split (q k : Z) :
  0 <= q <= k -> seqZ 0 k = seqZ 0 q ++ seqZ q (k - q).
Proof.
  intros Hq. replace k with (q + (k - q)) at 1 by lia.
  rewrite seqZ_app by lia. reflexivity.
Qed.

Lemma maxQuadsPerDrawCall_nonneg : 0 <= maxQuadsPerDrawCall.
Proof. unfold maxQuadsPerDrawCall. lia. Qed.

Lemma index_array_after_split (q k : Z) :
  0 <= q <= k ->
  index_array_after k
  = fold_left index_body (seqZ q (k - q)) (index_array_after q).
Proof.
  intros Hq. unfold index_array_after.
  rewrite (seqZ_split q k Hq). apply fold_left_app.
Qed.

Lemma index_array_after_stage (m : Z) :
  0 <= m ->
  Z.of_nat (length (index_array_after m)) = template_length /\
  Forall is_template_vertex (index_array_after m).
Proof.
  intros Hm.
  destruct (StructArrayLayout3ui6_spec maxTrianglesPerDrawCall)
    as [Hlen0 Hzero];
    [unfold maxTrianglesPerDrawCall, maxQuadsPerDrawCall; lia |].
  apply index_loop_vertices; [| exact Hlen0 |].
  - apply Forall_seqZ. lia.
  - eapply Forall_impl; [exact Hzero |]. intros v ->.
    unfold is_template_vertex, maxVerticesPerDrawCall, maxQuadsPerDrawCall. lia.
Qed.

(** C10.  At every stage of the generation loop, and so in the finished
    buffer, the array keeps its 384 entries (128 triangles) and every
    entry is a vertex index of the 256-vertex template.  The iterations
    from 64 on address entries past the end of the array only and leave it
    as the first 64 iterations made it. *)
Theorem index_template_vertices_in_range (k : Z)
    (Hk : 0 <= k <= maxTrianglesPerDrawCall) :
  Z.of_nat (length (index_array_after k)) = maxTrianglesPerDrawCall * 3 /\
  Forall (fun v => 0 <= v < 256) (index_array_after k) /\
  (maxQuadsPerDrawCall <= k ->
   index_array_after k = index_array_after maxQuadsPerDrawCall) /\
  index_array_after maxTrianglesPerDrawCall = indexBuffer2_array.
Proof.
  destruct (index_array_after_stage k) as [Hlen Hall]; [lia |].
  split; [rewrite Hlen; reflexivity |].
  split.
  { eapply Forall_impl; [exact Hall |]. intros v Hv.
    unfold is_template_vertex, maxVerticesPerDrawCall, maxQuadsPerDrawCall in Hv.
    lia. }
  split; [| unfold index_array_after, indexBuffer2_array; reflexivity].
  intros Hge.
  rewrite (index_array_after_split maxQuadsPerDrawCall k)
    by (split; [apply maxQuadsPerDrawCall_nonneg | exact Hge]).
  apply index_loop_past_end.
  - apply Forall_seqZ. intros m' Hm'. apply Hm'.
  - apply index_array_after_stage, maxQuadsPerDrawCall_nonneg.
Qed.

Lemma index_template_vertices_in_range_witness :
  (0 <= 128 <= maxTrianglesPerDrawCall) /\
  Forall (fun v => 0 <= v < 256) (index_array_after 128).
Proof.
  assert (Hk : 0 <= 128 <= maxTrianglesPerDrawCall) by (vm_compute; split; discriminate).
  split; [exact Hk |].
  exact (proj1 (proj2 (index_template_vertices_in_range 128 Hk))).
Defined.

(** C2.  For every quad [i] of the template the index buffer stores the
    two triangles [(4i, 4i+1, 4i+2)] and [(4i+2, 4i+3, 4i)], as its
    triangles [2i] and [2i+1]; the buffer holds
    [maxQuadsPerDrawCall * 2 = 128] triangles. *)
Theorem index_template_quads (i : Z) (Hi : 0 <= i < maxQuadsPerDrawCall) :
  triangle indexBuffer2_array (2 * i) = Some (4 * i, 4 * i + 1, 4 * i + 2) /\
  triangle indexBuffer2_array (2 * i + 1) = Some (4 * i + 2, 4 * i + 3, 4 * i + 0) /\
  triangle_count indexBuffer2_array = maxQuadsPerDrawCall * 2 /\
  maxQuadsPerDrawCall * 2 = 128.
Proof.
  assert (Hall : Forall (fun i =>
            triangle indexBuffer2_array (2 * i) = Some (4 * i, 4 * i + 1, 4 * i + 2) /\
            triangle indexBuffer2_array (2 * i + 1)
              = Some (4 * i + 2, 4 * i + 3, 4 * i + 0))
          (seqZ 0 maxQuadsPerDrawCall)).
  { apply (bool_decide_unpack _). vm_compute. exact I. }
  rewrite Forall_seqZ in Hall.
  destruct (Hall i) as [H1 H2]; [lia |].
  split; [exact H1 |]. split; [exact H2 |].
  split; [vm_compute; reflexivity | reflexivity].
Qed.

Lemma index_template_quads_witness :
  triangle indexBuffer2_array (2 * 63) = Some (252, 253, 254) /\
  triangle indexBuffer2_array (2 * 63 + 1) = Some (254, 255, 252).
Proof.
  assert (Hi : 0 <= 63 < maxQuadsPerDrawCall) by (vm_compute; split; [discriminate | reflexivity]).
  destruct (index_template_quads 63 Hi) as (H1 & H2 & _).
  split; [exact H1 | exact H2].
Defined.

(** X1.  The vertex template: vertex [v] of the 256 stores its own index
    [v] in both of its components. *)
Lemma vertex_template_sequential (v : Z) (Hv : 0 <= v < maxVerticesPerDrawCall) :
  vertexBuffer2_array !! Z.to_nat (2 * v) = Some v /\
  vertexBuffer2_array !! Z.to_nat (2 * v + 1) = Some v.
Proof.
  assert (Hall : Forall (fun v =>
            vertexBuffer2_array !! Z.to_nat (2 * v) = Some v /\
            vertexBuffer2_array !! Z.to_nat (2 * v + 1) = Some v)
          (seqZ 0 maxVerticesPerDrawCall)).
  { apply (bool_decide_unpack _). vm_compute. exact I. }
  rewrite Forall_seqZ in Hall. apply Hall. lia.
Qed.

(** ** The copy loop and the packing step *)

Section Packing.
Context `{Externals}.
Implicit Types (arr : CollisionCircleArray) (qp : list f32) (b q : Z)
  (log l : list Z) (s : BatchState).

Lemma copy_quad_counters arr qp b log x :
  (copy_quad arr (qp, b, log) x).1.2 = b + 1 /\
  (copy_quad arr (qp, b, log) x).2 = log ++ [x] /\
  length (copy_quad arr (qp, b, log) x).1.1 = length qp.
Proof. simpl. by rewrite !length_set. Qed.

Lemma copy_quad_data arr qp b log x :
  0 <= b ->
  b * 4 + 4 <= Z.of_nat (length qp) ->
  (forall j, 0 <= j < 4 ->
     (copy_quad arr (qp, b, log) x).1.1 !! Z.to_nat (b * 4 + j)
     = Some (circle_float arr (x * 4 + j))) /\
  (forall n : nat, ~ (b * 4 <= Z.of_nat n < b * 4 + 4) ->
     (copy_quad arr (qp, b, log) x).1.1 !! n = qp !! n).
Proof.
  intros Hb Hlen. simpl. split.
  - intros j Hj.
    assert (Hcase : j = 0 \/ j = 1 \/ j = 2 \/ j = 3) by lia.
    destruct Hcase as [-> | [-> | [-> | ->]]];
      repeat (rewrite lookup_set_ne by lia);
      apply lookup_set_eq; rewrite ?length_set; lia.
  - intros n Hn. rewrite !lookup_set_ne by lia. done.
Qed.

Lemma copy_loop_counters arr l qp b log :
  (fold_left (copy_quad arr) l (qp, b, log)).1.2 = b + Z.of_nat (length l) /\
  (fold_left (copy_quad arr) l (qp, b, log)).2 = log ++ l /\
  length (fold_left (copy_quad arr) l (qp, b, log)).1.1 = length qp.
Proof.
  revert qp b log. induction l as [| x l IH]; intros qp b log.
  - simpl. rewrite app_nil_r. split; [lia | done].
  - cbn [fold_left].
    destruct (copy_quad arr (qp, b, log) x) as [[qp1 b1] log1] eqn:Hstep.
    pose proof (copy_quad_counters arr qp b log x) as (Hb1 & Hlog1 & Hlen1).
    rewrite Hstep in Hb1, Hlog1, Hlen1. simpl in Hb1, Hlog1, Hlen1.
    destruct (IH qp1 b1 log1) as (IHb & IHlog & IHlen).
    rewrite IHb, IHlog, IHlen, Hb1, Hlog1, Hlen1.
    rewrite <- app_assoc. simpl. split; [lia | done].
Qed.

Lemma copy_loop_data arr l qp b log :
  0 <= b ->
  (b + Z.of_nat (length l)) * 4 <= Z.of_nat (length qp) ->
  (forall (k : nat) (x j : Z), l !! k = Some x -> 0 <= j < 4 ->
     (fold_left (copy_quad arr) l (qp, b, log)).1.1
       !! Z.to_nat ((b + Z.of_nat k) * 4 + j)
     = Some (circle_float arr (x * 4 + j))) /\
  (forall n : nat, ~ (b * 4 <= Z.of_nat n < (b + Z.of_nat (length l)) * 4) ->
     (fold_left (copy_quad arr) l (qp, b, log)).1.1 !! n = qp !! n).
Proof.
  revert qp b log. induction l as [| x l IH]; intros qp b log Hb Hlen.
  - split; [intros k y j Hk; by rewrite lookup_nil in Hk | done].
  - cbn [fold_left]. cbn [length] in Hlen.
    destruct (copy_quad arr (qp, b, log) x) as [[qp1 b1] log1] eqn:Hstep.
    pose proof (copy_quad_counters arr qp b log x) as (Hb1 & _ & Hlen1).
    pose proof (copy_quad_data arr qp b log x Hb) as [Hnew Hold]; [lia |].
    rewrite Hstep in Hb1, Hlen1, Hnew, Hold. simpl in Hb1, Hlen1, Hnew, Hold.
    subst b1.
    destruct (IH qp1 (b + 1) log1) as [IHnew IHold]; [lia | lia |].
    split.
    + intros k y j Hk Hj. destruct k as [| k].
      * injection Hk as ->.
        rewrite IHold by lia.
        replace ((b + Z.of_nat 0) * 4 + j) with (b * 4 + j) by lia.
        by apply Hnew.
      * replace ((b + Z.of_nat (S k)) * 4 + j)
          with ((b + 1 + Z.of_nat k) * 4 + j) by lia.
        by apply IHnew.
    + intros n Hn. rewrite IHold by (cbn [length] in Hn; lia).
      apply Hold. cbn [length] in Hn. lia.
Qed.

(** The fields of the state after the packing step. *)
Lemma pack_fields arr s :
  batchQuadIdx (pack arr s)
  = batchQuadIdx s + Z.of_nat (length (seqZ (quadOffset s) (batchSize arr s))) /\
  quadOffset (pack arr s) = quadOffset s + batchSize arr s /\
  length (quadProperties (pack arr s)) = length (quadProperties s) /\
  drawn (pack arr s) = drawn s /\
  copied (pack arr s) = copied s ++ seqZ (quadOffset s) (batchSize arr s).
Proof.
  unfold pack.
  pose proof (copy_loop_counters arr (seqZ (quadOffset s) (batchSize arr s))
                (quadProperties s) (batchQuadIdx s) (copied s)) as (Hb & Hlog & Hlen).
  destruct (fold_left _ _ _) as [[qp1 b1] log1]. simpl in *. by subst.
Qed.

Lemma pack_data arr s :
  0 <= batchQuadIdx s <= maxQuadsPerDrawCall ->
  Z.of_nat (length (quadProperties s)) = maxQuadsPerDrawCall * 4 ->
  (forall k j : Z, 0 <= k < batchSize arr s -> 0 <= j < 4 ->
     quadProperties (pack arr s) !! Z.to_nat ((batchQuadIdx s + k) * 4 + j)
     = Some (circle_float arr ((quadOffset s + k) * 4 + j))) /\
  (forall n : nat,
     ~ (batchQuadIdx s * 4 <= Z.of_nat n < (batchQuadIdx s + batchSize arr s) * 4) ->
     quadProperties (pack arr s) !! n = quadProperties s !! n).
Proof.
  intros Hb Hlen.
  assert (Hsize : batchSize arr s <= maxQuadsPerDrawCall - batchQuadIdx s)
    by (unfold batchSize; lia).
  unfold maxQuadsPerDrawCall in *.
  pose proof (copy_loop_data arr (seqZ (quadOffset s) (batchSize arr s))
                (quadProperties s) (batchQuadIdx s) (copied s) (proj1 Hb)) as Hdata.
  rewrite length_seqZ in Hdata.
  destruct Hdata as [Hnew Hold]; [lia |].
  unfold pack. destruct (fold_left _ _ _) as [[qp1 b1] log1]. simpl in *.
  split.
  - intros k j Hk Hj.
    replace k with (Z.of_nat (Z.to_nat k)) at 1 by lia.
    rewrite (Hnew (Z.to_nat k) (quadOffset s + k) j); [done | | done].
    rewrite lookup_seqZ. lia.
  - intros n Hn. apply Hold. lia.
Qed.

End Packing.

(** ** The batching loop of one tile *)


Section Batching.
Context `{Externals}.
Variables (layer : Layer) (batchTransform batchInvTransform : mat4)
  (arr : CollisionCircleArray).
Implicit Types (s : BatchState) (d : TrianglesDraw).

Local Abbreviation n := (arr_length arr).
Local Abbreviation body := (loop_body layer batchTransform batchInvTransform arr).
Local Abbreviation while := (fun fuel => while_loop fuel layer batchTransform batchInvTransform arr).
Local Abbreviation batch := (batch_of layer batchTransform batchInvTransform arr).

(** An iteration that starts an empty batch with 64 circles or more left
    fills the batch and flushes it. *)
Lemma loop_body_full s :
  batchQuadIdx s = 0 ->
  quadOffset s + maxQuadsPerDrawCall <= n ->
  Z.of_nat (length (quadProperties s)) = maxQuadsPerDrawCall * 4 ->
  batchQuadIdx (body s) = 0 /\
  quadOffset (body s) = quadOffset s + maxQuadsPerDrawCall /\
  length (quadProperties (body s)) = length (quadProperties s) /\
  copied (body s) = copied s ++ seqZ (quadOffset s) maxQuadsPerDrawCall /\
  exists d, drawn (body s) = drawn s ++ [d] /\
            batch d (quadOffset s, maxQuadsPerDrawCall).
Proof.
  intros Hb Hq Hlen.
  assert (Hsize : batchSize arr s = maxQuadsPerDrawCall)
    by (unfold batchSize; rewrite Hb; unfold maxQuadsPerDrawCall in *; lia).
  destruct (pack_fields arr s) as (Fb & Fq & Flen & Fdrawn & Flog).
  destruct (pack_data arr s) as [Hnew _];
    [rewrite Hb; unfold maxQuadsPerDrawCall; lia | done |].
  rewrite Hsize in *. rewrite length_seqZ, Hb in Fb.
  assert (Hfull : batchQuadIdx (pack arr s) = maxQuadsPerDrawCall)
    by (rewrite Fb; unfold maxQuadsPerDrawCall; lia).
  unfold loop_body, flush_full. rewrite Hfull, Z.eqb_refl. simpl.
  repeat split; try done.
  exists (draw_batch layer batchTransform batchInvTransform (pack arr s)).
  split; [unfold emit; by rewrite Fdrawn |].
  unfold batch_of, draw_batch. simpl. rewrite Hfull.
  repeat split; try done.
  - rewrite Flen. done.
  - intros k j Hk Hj. rewrite <- (Hnew k j Hk Hj), Hb. done.
Qed.

(** An iteration that starts an empty batch with fewer than 64 circles
    left copies them all and leaves the batch in flight. *)
Lemma loop_body_partial s :
  batchQuadIdx s = 0 ->
  quadOffset s < n < quadOffset s + maxQuadsPerDrawCall ->
  Z.of_nat (length (quadProperties s)) = maxQuadsPerDrawCall * 4 ->
  batchQuadIdx (body s) = n - quadOffset s /\
  quadOffset (body s) = n /\
  length (quadProperties (body s)) = length (quadProperties s) /\
  copied (body s) = copied s ++ seqZ (quadOffset s) (n - quadOffset s) /\
  drawn (body s) = drawn s /\
  forall k j : Z, 0 <= k < n - quadOffset s -> 0 <= j < 4 ->
    quadProperties (body s) !! Z.to_nat (k * 4 + j)
    = Some (circle_float arr ((quadOffset s + k) * 4 + j)).
Proof.
  intros Hb Hq Hlen.
  assert (Hsize : batchSize arr s = n - quadOffset s)
    by (unfold batchSize; rewrite Hb; unfold maxQuadsPerDrawCall in *; lia).
  destruct (pack_fields arr s) as (Fb & Fq & Flen & Fdrawn & Flog).
  destruct (pack_data arr s) as [Hnew _];
    [rewrite Hb; unfold maxQuadsPerDrawCall; lia | done |].
  rewrite Hsize in *. rewrite length_seqZ, Hb in Fb.
  assert (Hpart : batchQuadIdx (pack arr s) = n - quadOffset s) by lia.
  unfold loop_body, flush_full. rewrite Hpart.
  destruct (Z.eqb_spec (n - quadOffset s) maxQuadsPerDrawCall) as [Heq | _];
    [lia |].
  repeat split; try done; [lia |].
  intros k j Hk Hj. rewrite <- (Hnew k j Hk Hj), Hb. done.
Qed.

Lemma full_batches_S (count : nat) (off : Z) :
  full_batches (S count) off
  = (off, maxQuadsPerDrawCall) :: full_batches count (off + maxQuadsPerDrawCall).
Proof. reflexivity. Qed.

(** The loop, from a state with an empty batch: it ends, having flushed
    the full batches of the remaining circles in order, with the circles
    that are left over at the head of the scratch array. *)
Lemma while_loop_spec (fuel : nat) s :
  batchQuadIdx s = 0 ->
  0 <= quadOffset s <= n ->
  Z.of_nat (length (quadProperties s)) = maxQuadsPerDrawCall * 4 ->
  n - quadOffset s < Z.of_nat fuel ->
  exists s',
    while fuel s = Some s' /\
    quadOffset s' = n /\
    batchQuadIdx s' = (n - quadOffset s) mod maxQuadsPerDrawCall /\
    Z.of_nat (length (quadProperties s')) = maxQuadsPerDrawCall * 4 /\
    copied s' = copied s ++ seqZ (quadOffset s) (n - quadOffset s) /\
    (exists ds,
       drawn s' = drawn s ++ ds /\
       Forall2 batch ds
         (full_batches (Z.to_nat ((n - quadOffset s) / maxQuadsPerDrawCall))
                       (quadOffset s))) /\
    (forall k j : Z,
       0 <= k < (n - quadOffset s) mod maxQuadsPerDrawCall -> 0 <= j < 4 ->
       quadProperties s' !! Z.to_nat (k * 4 + j)
       = Some (circle_float arr
                 ((quadOffset s
                   + (n - quadOffset s) / maxQuadsPerDrawCall * maxQuadsPerDrawCall
                   + k) * 4 + j))).
Proof.
  revert s. induction fuel as [| fuel IH]; intros s Hb Hq Hlen Hfuel; [lia |].
  cbn [while_loop]. unfold loop_guard.
  destruct (Z.ltb_spec (quadOffset s) n) as [Hlt | Hge].
  - destruct (Z_le_gt_dec (quadOffset s + maxQuadsPerDrawCall) n) as [Hfull | Hpart].
    + (* a full batch *)
      destruct (loop_body_full s Hb Hfull Hlen)
        as (Fb & Fq & Flen & Flog & d & Fdrawn & Hd).
      destruct (IH (body s)) as (s' & Hrun & Hq' & Hb' & Hlen' & Hlog' & Hds & Hrest).
      { done. }
      { rewrite Fq. unfold maxQuadsPerDrawCall in *. lia. }
      { by rewrite Flen. }
      { rewrite Fq. unfold maxQuadsPerDrawCall in *. lia. }
      destruct Hds as (ds & Hdrawn' & Hall).
      rewrite Fq in Hb', Hlog', Hall, Hrest.
      assert (Hdiv : (n - quadOffset s) / maxQuadsPerDrawCall
                     = (n - (quadOffset s + maxQuadsPerDrawCall)) / maxQuadsPerDrawCall + 1)
        by quads_lia.
      assert (Hmod : (n - quadOffset s) mod maxQuadsPerDrawCall
                     = (n - (quadOffset s + maxQuadsPerDrawCall)) mod maxQuadsPerDrawCall)
        by quads_lia.
      exists s'. split; [exact Hrun |]. split; [exact Hq' |].
      split; [by rewrite Hmod |]. split; [exact Hlen' |].
      split.
      { rewrite Hlog', Flog, <- app_assoc. f_equal.
        replace (n - quadOffset s)
          with (maxQuadsPerDrawCall + (n - (quadOffset s + maxQuadsPerDrawCall))) by lia.
        rewrite seqZ_app by quads_lia. done. }
      split.
      { exists (d :: ds). split.
        - rewrite Hdrawn', Fdrawn, <- app_assoc. done.
        - rewrite Hdiv.
          replace (Z.to_nat ((n - (quadOffset s + maxQuadsPerDrawCall)) / maxQuadsPerDrawCall + 1))
            with (S (Z.to_nat ((n - (quadOffset s + maxQuadsPerDrawCall)) / maxQuadsPerDrawCall)))
            by quads_lia.
          rewrite full_batches_S. by constructor. }
      intros k j Hk Hj. rewrite Hmod in Hk.
      rewrite (Hrest k j Hk Hj). do 2 f_equal.
      unfold maxQuadsPerDrawCall in *. lia.
    + (* the last, partial batch *)
      destruct (loop_body_partial s Hb) as (Fb & Fq & Flen & Flog & Fdrawn & Hdata);
        [lia | done |].
      assert (Hdiv : (n - quadOffset s) / maxQuadsPerDrawCall = 0)
        by quads_lia.
      assert (Hmod : (n - quadOffset s) mod maxQuadsPerDrawCall = n - quadOffset s)
        by quads_lia.
      destruct fuel as [| fuel]; [lia |].
      exists (body s). cbn [while_loop]. unfold loop_guard.
      rewrite Fq, Z.ltb_irrefl.
      split; [done |]. split; [done |]. split; [by rewrite Hmod |].
      split; [by rewrite Flen |]. split; [done |].
      split.
      { exists []. rewrite Hdiv, app_nil_r. split; [done | constructor]. }
      intros k j Hk Hj. rewrite Hmod in Hk. rewrite (Hdata k j Hk Hj).
      do 2 f_equal. lia.
  - (* nothing left *)
    assert (Hzero : n - quadOffset s = 0) by lia.
    exists s. rewrite Hzero.
    split; [done |]. split; [lia |]. split; [by rewrite Hb |].
    split; [done |]. split; [by rewrite app_nil_r |].
    split; [exists []; rewrite app_nil_r; split; [done | constructor] |].
    intros k j Hk. quads_lia.
Qed.

End Batching.

(** ** Counters of the loop: capacity and termination *)

Section Counters.
Context `{Externals}.
Variables (layer : Layer) (batchTransform batchInvTransform : mat4)
  (arr : CollisionCircleArray) (scratch : list f32).
Implicit Types (s : BatchState) (d : TrianglesDraw).

Local Abbreviation n := (arr_length arr).
Local Abbreviation body := (loop_body layer batchTransform batchInvTransform arr).
Local Abbreviation while := (fun fuel => while_loop fuel layer batchTransform batchInvTransform arr).
Local Abbreviation top := (loop_top layer batchTransform batchInvTransform arr scratch).

Lemma draw_quads_draw_batch s :
  draw_quads (draw_batch layer batchTransform batchInvTransform s) = batchQuadIdx s.
Proof. unfold draw_quads, draw_batch. simpl. apply Z.div_mul. done. Qed.

(** One iteration from an empty batch, on the counters alone. *)
Lemma loop_body_counters s :
  batchQuadIdx s = 0 ->
  loop_guard arr s = true ->
  1 <= batchSize arr s <= maxQuadsPerDrawCall /\
  batchQuadIdx (pack arr s) = batchSize arr s /\
  quadOffset (body s) = quadOffset s + batchSize arr s /\
  quadOffset (body s) <= n /\
  drawn (body s)
  = drawn s ++ (if batchSize arr s =? maxQuadsPerDrawCall
                then [draw_batch layer batchTransform batchInvTransform (pack arr s)]
                else []) /\
  (batchQuadIdx (body s) = 0 \/
   0 < batchQuadIdx (body s) < maxQuadsPerDrawCall /\ quadOffset (body s) = n).
Proof.
  intros Hb Hguard. unfold loop_guard in Hguard. apply Z.ltb_lt in Hguard.
  destruct (pack_fields arr s) as (Fb & Fq & _ & Fdrawn & _).
  rewrite length_seqZ, Hb in Fb.
  assert (Hsize : 1 <= batchSize arr s <= maxQuadsPerDrawCall
                  /\ batchSize arr s <= n - quadOffset s
                  /\ (batchSize arr s = maxQuadsPerDrawCall
                      \/ batchSize arr s = n - quadOffset s))
    by (unfold batchSize; rewrite Hb; unfold maxQuadsPerDrawCall; lia).
  assert (Hpacked : batchQuadIdx (pack arr s) = batchSize arr s) by lia.
  split; [tauto |]. split; [exact Hpacked |].
  unfold loop_body, flush_full. rewrite Hpacked.
  destruct (Z.eqb_spec (batchSize arr s) maxQuadsPerDrawCall) as [Hfull | Hpart];
    simpl; rewrite ?Fq, ?Fdrawn, ?Hpacked, ?app_nil_r.
  - split; [done |]. split; [lia |].
    split; [unfold emit; by rewrite Fdrawn |]. by left.
  - split; [done |]. split; [lia |]. split; [done |]. right. lia.
Qed.

(** What holds whenever the guard of the loop is evaluated. *)
Lemma loop_top_invariant s :
  top s ->
  0 <= batchQuadIdx s < maxQuadsPerDrawCall /\
  (batchQuadIdx s = 0 \/ n <= quadOffset s) /\
  Forall (fun d => draw_quads d = maxQuadsPerDrawCall) (drawn s).
Proof.
  induction 1 as [| s Htop (IHb & IHq & IHd) Hguard].
  - simpl. unfold maxQuadsPerDrawCall.
    split; [lia |]. split; [by left | constructor].
  - assert (Hb : batchQuadIdx s = 0).
    { destruct IHq as [Hb | Hq]; [exact Hb |].
      unfold loop_guard in Hguard. apply Z.ltb_lt in Hguard. lia. }
    destruct (loop_body_counters s Hb Hguard)
      as (Hsize & Hpacked & Hq' & Hle & Hdrawn & Hb').
    split; [| split].
    + unfold maxQuadsPerDrawCall in *. lia.
    + destruct Hb' as [Hb' | [_ Hend]]; [by left | right; lia].
    + rewrite Hdrawn. apply Forall_app. split; [exact IHd |].
      destruct (Z.eqb_spec (batchSize arr s) maxQuadsPerDrawCall) as [Hfull | _];
        [| constructor].
      constructor; [| constructor].
      rewrite draw_quads_draw_batch. lia.
Qed.

Lemma while_loop_terminates (fuel : nat) s :
  top s ->
  (Z.to_nat (n - quadOffset s) < fuel)%nat ->
  exists s', while fuel s = Some s' /\ top s' /\ loop_guard arr s' = false.
Proof.
  revert s. induction fuel as [| fuel IH]; intros s Htop Hfuel; [lia |].
  cbn [while_loop]. destruct (loop_guard arr s) eqn:Hguard.
  - destruct (loop_top_invariant s Htop) as (_ & Hq & _).
    assert (Hb : batchQuadIdx s = 0).
    { destruct Hq as [Hb | Hq]; [exact Hb |].
      unfold loop_guard in Hguard. apply Z.ltb_lt in Hguard. lia. }
    destruct (loop_body_counters s Hb Hguard) as (Hsize & _ & Hq' & Hle & _).
    apply IH; [by constructor |]. rewrite Hq'. lia.
  - by exists s.
Qed.

(** C7.  Whenever the guard of the circle loop is evaluated the batch in
    flight holds fewer than 64 quads; during the iteration that follows,
    after any number [k] of rounds of the copy loop, after the packing
    step and after the flush test, it holds at most 64; the leftover step
    leaves it at most 64; and no draw call issued so far or by the
    leftover step covers more than 64 quads. *)
Theorem batch_never_exceeds_capacity s (Htop : top s) :
  batchQuadIdx s <= maxQuadsPerDrawCall /\
  Forall (fun d => draw_quads d <= maxQuadsPerDrawCall) (drawn s) /\
  (loop_guard arr s = true ->
     (forall k : nat, (copy_loop_upto k arr s).1.2 <= maxQuadsPerDrawCall) /\
     batchQuadIdx (pack arr s) <= maxQuadsPerDrawCall /\
     batchQuadIdx (body s) <= maxQuadsPerDrawCall) /\
  (loop_guard arr s = false ->
     batchQuadIdx (leftover layer batchTransform batchInvTransform s)
       <= maxQuadsPerDrawCall /\
     Forall (fun d => draw_quads d <= maxQuadsPerDrawCall)
            (drawn (leftover layer batchTransform batchInvTransform s))).
Proof.
  destruct (loop_top_invariant s Htop) as (Hb & Hq & Hd).
  assert (Hd' : Forall (fun d => draw_quads d <= maxQuadsPerDrawCall) (drawn s)).
  { eapply Forall_impl; [exact Hd |]. simpl. intros d ->. done. }
  split; [lia |]. split; [exact Hd' |]. split.
  - intros Hguard.
    assert (Hzero : batchQuadIdx s = 0).
    { destruct Hq as [Hzero | Hq]; [exact Hzero |].
      unfold loop_guard in Hguard. apply Z.ltb_lt in Hguard. lia. }
    destruct (loop_body_counters s Hzero Hguard) as (Hsize & Hpacked & _ & _ & _ & Hb').
    split; [| split; [lia |]].
    + intros k. unfold copy_loop_upto.
      destruct (copy_loop_counters arr
                  (take k (seqZ (quadOffset s) (batchSize arr s)))
                  (quadProperties s) (batchQuadIdx s) (copied s)) as (-> & _ & _).
      rewrite length_take, length_seqZ. lia.
    + destruct Hb' as [-> | Hb']; [unfold maxQuadsPerDrawCall |]; lia.
  - intros _. unfold leftover, emit.
    destruct (batchQuadIdx s =? 0); simpl; (split; [lia |]); [exact Hd' |].
    apply Forall_app. split; [exact Hd' |].
    constructor; [| constructor]. rewrite draw_quads_draw_batch. lia.
Qed.

(** C9.  Whenever the guard holds, the batch in flight is not full, so the
    packing step copies at least one circle and the scan cursor moves
    forward, never past the end of the array; and the loop ends: with more
    fuel than circles, it returns a state in which the guard fails. *)
Theorem packing_loop_terminates :
  (forall s, top s -> loop_guard arr s = true ->
     batchQuadIdx s < maxQuadsPerDrawCall /\
     1 <= batchSize arr s /\
     quadOffset s < quadOffset (body s) <= n) /\
  (forall fuel : nat, (Z.to_nat n < fuel)%nat ->
     exists s', while fuel (enter scratch) = Some s' /\
                top s' /\ loop_guard arr s' = false).
Proof.
  split.
  - intros s Htop Hguard.
    destruct (loop_top_invariant s Htop) as (Hb & Hq & _).
    assert (Hzero : batchQuadIdx s = 0).
    { destruct Hq as [Hzero | Hq]; [exact Hzero |].
      unfold loop_guard in Hguard. apply Z.ltb_lt in Hguard. lia. }
    destruct (loop_body_counters s Hzero Hguard) as (Hsize & _ & Hq' & Hle & _).
    split; [lia |]. split; lia.
  - intros fuel Hfuel. apply while_loop_terminates; [constructor |].
    simpl. by rewrite Z.sub_0_r.
Qed.

End Counters.

(** ** The batches of the specification *)

Lemma full_batches_windows (count : nat) (off : Z) (w : Z * Z) :
  w ∈ full_batches count off ->
  w.2 = maxQuadsPerDrawCall /\
  off <= w.1 /\
  w.1 + w.2 <= off + Z.of_nat count * maxQuadsPerDrawCall.
Proof.
  revert off. induction count as [| count IH]; intros off Hw.
  - by apply elem_of_nil in Hw.
  - cbn [full_batches] in Hw. apply elem_of_cons in Hw as [-> | Hw].
    + simpl. unfold maxQuadsPerDrawCall. lia.
    + destruct (IH _ Hw) as (Hsize & Hlo & Hhi).
      unfold maxQuadsPerDrawCall in *. lia.
Qed.

Lemma full_batches_sizes (count : nat) (off : Z) :
  (full_batches count off).*2 = replicate count maxQuadsPerDrawCall.
Proof.
  revert off. induction count as [| count IH]; intros off; [done |].
  cbn [full_batches fmap list_fmap replicate]. simpl. f_equal. apply IH.
Qed.

Lemma spec_batches_sizes (n : Z) :
  (spec_batches n).*2
  = replicate (Z.to_nat (n / maxQuadsPerDrawCall)) maxQuadsPerDrawCall
    ++ (if 0 <? n mod maxQuadsPerDrawCall then [n mod maxQuadsPerDrawCall] else []).
Proof.
  unfold spec_batches. rewrite fmap_app, full_batches_sizes.
  by destruct (0 <? n mod maxQuadsPerDrawCall).
Qed.

Lemma spec_batches_length (n : Z) :
  0 <= n -> Z.of_nat (length (spec_batches n)) = spec_draw_calls n.
Proof.
  intros Hn.
  rewrite <- (length_fmap snd), spec_batches_sizes, length_app, length_replicate.
  unfold spec_draw_calls.
  destruct (Z.ltb_spec 0 (n mod maxQuadsPerDrawCall)); simpl; quads_lia.
Qed.

Lemma spec_batches_windows (n : Z) (w : Z * Z) :
  0 <= n ->
  w ∈ spec_batches n ->
  1 <= w.2 <= maxQuadsPerDrawCall /\ 0 <= w.1 /\ w.1 + w.2 <= n.
Proof.
  intros Hn Hw. unfold spec_batches in Hw.
  apply elem_of_app in Hw as [Hw | Hw].
  - apply full_batches_windows in Hw as (Hsize & Hlo & Hhi).
    rewrite Z2Nat.id in Hhi by quads_lia. quads_lia.
  - destruct (Z.ltb_spec 0 (n mod maxQuadsPerDrawCall)) as [Hpos | _];
      [| by apply elem_of_nil in Hw].
    apply list_elem_of_singleton in Hw as ->. simpl. quads_lia.
Qed.

(** ** The circle path of one tile *)

Section CirclePath.
Context `{Externals}.
Implicit Types (s : BatchState) (d : TrianglesDraw) (w : Z * Z).

Lemma batch_of_draw_quads layer bt binv arr d w :
  batch_of layer bt binv arr d w -> draw_quads d = w.2.
Proof.
  destruct w as [off size]. intros (_ & _ & _ & _ & Hseg & _).
  unfold draw_quads. rewrite Hseg. simpl. apply Z.div_mul. done.
Qed.

Lemma batches_draw_quads layer bt binv arr (ds : list TrianglesDraw)
    (ws : list (Z * Z)) :
  Forall2 (batch_of layer bt binv arr) ds ws -> draw_quads <$> ds = ws.*2.
Proof.
  induction 1 as [| d w ds ws Hd _ IH]; [done |].
  cbn [fmap list_fmap]. f_equal; [| exact IH].
  by eapply batch_of_draw_quads.
Qed.

(** The whole circle path of a tile with a bucket: it returns, its draw
    calls are the batches of the specification, every circle was read
    once and in order, and the scratch array keeps its size. *)
Lemma circle_tile_spec (fuel : nat) painter layer translate translateAnchor
    (scratch : list f32) coord tile bucket :
  getBucket tile = Some bucket ->
  0 <= arr_length (collisionCircleArrayTemp bucket) ->
  Z.of_nat (length scratch) = maxQuadsPerDrawCall * 4 ->
  arr_length (collisionCircleArrayTemp bucket) < Z.of_nat fuel ->
  exists s,
    circle_tile fuel painter layer translate translateAnchor scratch coord tile
    = Some s /\
    Forall2 (batch_of layer
               (tile_posMatrix painter coord tile translate translateAnchor)
               (reproject bucket painter)
               (collisionCircleArrayTemp bucket))
            (drawn s)
            (spec_batches (arr_length (collisionCircleArrayTemp bucket))) /\
    copied s = seqZ 0 (arr_length (collisionCircleArrayTemp bucket)) /\
    Z.of_nat (length (quadProperties s)) = maxQuadsPerDrawCall * 4.
Proof.
  intros Hbucket Hn Hlen Hfuel.
  unfold circle_tile. rewrite Hbucket.
  set (arr := collisionCircleArrayTemp bucket) in *.
  set (bt := tile_posMatrix painter coord tile translate translateAnchor).
  set (binv := reproject bucket painter).
  destruct (Z.eqb_spec (arr_length arr) 0) as [Hzero | Hpos].
  - exists (enter scratch). rewrite Hzero. split; [done |].
    split; [constructor | done].
  - destruct (while_loop_spec layer bt binv arr fuel (enter scratch))
      as (s & Hrun & Hq & Hb & Hlen' & Hlog & (ds & Hdrawn & Hds) & Hrest);
      [done | simpl; lia | done | simpl; lia |].
    simpl in Hb, Hlog, Hdrawn, Hds, Hrest.
    rewrite Z.sub_0_r in Hb, Hlog, Hds, Hrest.
    rewrite Hrun. simpl.
    exists (leftover layer bt binv s). split; [done |].
    unfold leftover, spec_batches. rewrite Hb.
    destruct (Z.eqb_spec (arr_length arr mod maxQuadsPerDrawCall) 0) as [Hmod | Hmod];
      simpl.
    + rewrite Hmod. simpl. rewrite app_nil_r, Hdrawn.
      split; [exact Hds |]. split; [exact Hlog | exact Hlen'].
    + assert (Hlt : 0 < arr_length arr mod maxQuadsPerDrawCall) by quads_lia.
      rewrite (proj2 (Z.ltb_lt _ _) Hlt).
      split; [| split; [exact Hlog | exact Hlen']].
      unfold emit. rewrite Hdrawn.
      apply Forall2_app; [exact Hds |].
      constructor; [| constructor].
      unfold batch_of, draw_batch. simpl. rewrite Hb.
      split; [done |]. split; [done |]. split; [done |]. split; [done |].
      split; [done |]. split; [exact Hlen' |].
      intros k j Hk Hj. rewrite (Hrest k j Hk Hj). do 2 f_equal; lia.
Qed.

(** C1.  For a tile whose circle array holds [n >= 0] circles the circle
    path returns after [ceil(n / 64)] draw calls, none when [n = 0]; the
    calls cover 64 quads each, but for a last one of [n mod 64] quads when
    that is not zero; and the calls are the batches of the specification:
    call number [i] carries the circles from [64 * i] on, in the order of
    the array. *)
Theorem circle_path_draw_calls (fuel : nat) painter layer translate
    translateAnchor (scratch : list f32) coord tile bucket
    (Hbucket : getBucket tile = Some bucket)
    (Hn : 0 <= arr_length (collisionCircleArrayTemp bucket))
    (Hscratch : Z.of_nat (length scratch) = maxQuadsPerDrawCall * 4)
    (Hfuel : arr_length (collisionCircleArrayTemp bucket) < Z.of_nat fuel) :
  let n := arr_length (collisionCircleArrayTemp bucket) in
  exists s,
    circle_tile fuel painter layer translate translateAnchor scratch coord tile
    = Some s /\
    Z.of_nat (length (drawn s)) = spec_draw_calls n /\
    (n = 0 -> drawn s = []) /\
    draw_quads <$> drawn s
    = replicate (Z.to_nat (n / 64)) 64
      ++ (if 0 <? n mod 64 then [n mod 64] else []) /\
    Forall2 (batch_of layer
               (tile_posMatrix painter coord tile translate translateAnchor)
               (reproject bucket painter)
               (collisionCircleArrayTemp bucket))
            (drawn s) (spec_batches n).
Proof.
  intros n.
  destruct (circle_tile_spec fuel painter layer translate translateAnchor
              scratch coord tile bucket Hbucket Hn Hscratch Hfuel)
    as (s & Hrun & Hds & _ & _).
  fold n in Hds.
  exists s. split; [exact Hrun |].
  assert (Hlen : Z.of_nat (length (drawn s)) = spec_draw_calls n).
  { rewrite (Forall2_length _ _ _ Hds). by apply spec_batches_length. }
  split; [exact Hlen |]. split.
  - intros Hzero. rewrite Hzero in Hlen.
    destruct (drawn s); [done | discriminate Hlen].
  - split; [| exact Hds].
    rewrite (batches_draw_quads _ _ _ _ _ _ Hds). apply spec_batches_sizes.
Qed.

End CirclePath.

(** ** Statements about the packing step and the flushed batches *)

Section Batches.
Context `{Externals}.
Implicit Types (s : BatchState) (d : TrianglesDraw) (w : Z * Z)
  (arr : CollisionCircleArray).

Lemma circle_float_in_range arr (i : Z) :
  0 <= i < Z.of_nat (length (float32 arr)) ->
  float32 arr !! Z.to_nat i = Some (circle_float arr i).
Proof.
  intros Hi. unfold circle_float, get.
  rewrite (proj2 (in_bounds_true _ _) Hi).
  destruct (lookup_lt_is_Some_2 (float32 arr) (Z.to_nat i)) as [v Hv]; [lia |].
  by rewrite Hv.
Qed.

(** C3.  In a packing step that starts with [batchQuadIdx] quads in the
    batch and the cursor at [quadOffset], for every [k] below [batchSize]
    the four floats of circle [quadOffset + k] are found, unchanged and in
    their field order, at float offset [(batchQuadIdx + k) * 4] of the
    scratch array, and both [batchQuadIdx] and [quadOffset] have advanced
    by [batchSize].  Over the whole loop of a tile the copy loop reads the
    circles [0, 1, ..., n - 1], each once. *)
Theorem packing_step_copies (fuel : nat) layer (bt binv : mat4) arr
    (scratch : list f32) s
    (Hwf : arr_length arr * 4 <= Z.of_nat (length (float32 arr)))
    (Hb : 0 <= batchQuadIdx s <= maxQuadsPerDrawCall)
    (Hq : 0 <= quadOffset s <= arr_length arr)
    (Hlen : Z.of_nat (length (quadProperties s)) = maxQuadsPerDrawCall * 4)
    (Hscratch : Z.of_nat (length scratch) = maxQuadsPerDrawCall * 4)
    (Hfuel : arr_length arr < Z.of_nat fuel) :
  (forall k j : Z, 0 <= k < batchSize arr s -> 0 <= j < 4 ->
     quadProperties (pack arr s) !! Z.to_nat ((batchQuadIdx s + k) * 4 + j)
     = float32 arr !! Z.to_nat ((quadOffset s + k) * 4 + j) /\
     is_Some (float32 arr !! Z.to_nat ((quadOffset s + k) * 4 + j))) /\
  batchQuadIdx (pack arr s) = batchQuadIdx s + batchSize arr s /\
  quadOffset (pack arr s) = quadOffset s + batchSize arr s /\
  exists s_end,
    while_loop fuel layer bt binv arr (enter scratch) = Some s_end /\
    copied s_end = seqZ 0 (arr_length arr).
Proof.
  assert (Hsize : 0 <= batchSize arr s <= arr_length arr - quadOffset s)
    by (unfold batchSize; lia).
  destruct (pack_fields arr s) as (Fb & Fq & _ & _ & _).
  destruct (pack_data arr s Hb Hlen) as [Hnew _].
  split; [| split; [| split]].
  - intros k j Hk Hj.
    assert (Hsrc : 0 <= (quadOffset s + k) * 4 + j
                   < Z.of_nat (length (float32 arr))) by lia.
    rewrite (circle_float_in_range arr _ Hsrc). split; [| by eexists].
    by apply Hnew.
  - rewrite Fb, length_seqZ. lia.
  - exact Fq.
  - destruct (while_loop_spec layer bt binv arr fuel (enter scratch))
      as (s_end & Hrun & _ & _ & _ & Hlog & _);
      [done | simpl; lia | done | simpl; lia |].
    exists s_end. split; [exact Hrun |].
    simpl in Hlog. by rewrite Z.sub_0_r in Hlog.
Qed.

End Batches.

(** ** The transforms of a tile *)

Section Tiles.
Context `{Externals}.
Implicit Types (s : BatchState) (d : TrianglesDraw) (arr : CollisionCircleArray)
  (painter : Painter) (layer : Layer) (tile : Tile) (bucket : SymbolBucket).

Lemma loop_body_draws (P : TrianglesDraw -> Prop) layer (bt binv : mat4) arr s :
  (forall s', P (draw_batch layer bt binv s')) ->
  Forall P (drawn s) ->
  Forall P (drawn (loop_body layer bt binv arr s)).
Proof.
  intros Hdraw Hs.
  destruct (pack_fields arr s) as (_ & _ & _ & Fdrawn & _).
  unfold loop_body, flush_full.
  destruct (batchQuadIdx (pack arr s) =? maxQuadsPerDrawCall); simpl.
  - unfold emit. rewrite Fdrawn. apply Forall_app. split; [exact Hs |].
    constructor; [apply Hdraw | constructor].
  - by rewrite Fdrawn.
Qed.

Lemma while_loop_draws (P : TrianglesDraw -> Prop) layer (bt binv : mat4) arr
    (fuel : nat) s s' :
  (forall s0, P (draw_batch layer bt binv s0)) ->
  while_loop fuel layer bt binv arr s = Some s' ->
  Forall P (drawn s) ->
  Forall P (drawn s').
Proof.
  intros Hdraw. revert s.
  induction fuel as [| fuel IH]; intros s Hrun Hs; [discriminate Hrun |].
  cbn [while_loop] in Hrun. destruct (loop_guard arr s).
  - apply (IH _ Hrun). by apply loop_body_draws.
  - by injection Hrun as <-.
Qed.

(** Every draw call of the circle path of a tile is made by [draw_batch]
    with the transforms of that tile. *)
Lemma circle_tile_draws (P : TrianglesDraw -> Prop) (fuel : nat) painter layer
    translate translateAnchor (scratch : list f32) coord tile bucket s :
  getBucket tile = Some bucket ->
  (forall s0, P (draw_batch layer
                   (tile_posMatrix painter coord tile translate translateAnchor)
                   (reproject bucket painter) s0)) ->
  circle_tile fuel painter layer translate translateAnchor scratch coord tile
  = Some s ->
  Forall P (drawn s).
Proof.
  intros Hbucket Hdraw Hrun. unfold circle_tile in Hrun. rewrite Hbucket in Hrun.
  destruct (arr_length (collisionCircleArrayTemp bucket) =? 0).
  - injection Hrun as <-. constructor.
  - destruct (while_loop fuel _ _ _ _ _) as [s1 |] eqn:Hloop; [| discriminate Hrun].
    simpl in Hrun. injection Hrun as <-.
    assert (Hs1 : Forall P (drawn s1)).
    { eapply while_loop_draws; [exact Hdraw | exact Hloop | constructor]. }
    unfold leftover. destruct (negb (batchQuadIdx s1 =? 0)); simpl; [| exact Hs1].
    unfold emit. apply Forall_app. split; [exact Hs1 |].
    constructor; [apply Hdraw | constructor].
Qed.

(** C4.  Every draw call of the circle path of a tile carries, as its
    inverse transform, [(placementInvProjMatrix × glCoordMatrix) ×
    placementViewportMatrix], the products taken in that order; the
    matrix depends on nothing else: a draw call of any other run whose
    three matrices are the same carries the same matrix. *)
Theorem reprojection_is_fixed_product
    (fuel : nat) painter layer translate translateAnchor (scratch : list f32)
    coord tile bucket s d
    (fuel' : nat) painter' layer' translate' translateAnchor'
    (scratch' : list f32) coord' tile' bucket' s' d'
    (Hbucket : getBucket tile = Some bucket)
    (Hrun : circle_tile fuel painter layer translate translateAnchor scratch
              coord tile = Some s)
    (Hd : d ∈ drawn s)
    (Hbucket' : getBucket tile' = Some bucket')
    (Hrun' : circle_tile fuel' painter' layer' translate' translateAnchor'
               scratch' coord' tile' = Some s')
    (Hd' : d' ∈ drawn s') :
  draw_batchInvTransform d
  = mat4_mul (mat4_mul (placementInvProjMatrix bucket)
                       (glCoordMatrix (transform painter)))
             (placementViewportMatrix bucket) /\
  (placementInvProjMatrix bucket' = placementInvProjMatrix bucket ->
   glCoordMatrix (transform painter') = glCoordMatrix (transform painter) ->
   placementViewportMatrix bucket' = placementViewportMatrix bucket ->
   draw_batchInvTransform d' = draw_batchInvTransform d).
Proof.
  assert (Hall : forall fuel painter layer translate translateAnchor
                   (scratch : list f32) coord tile bucket s d,
            getBucket tile = Some bucket ->
            circle_tile fuel painter layer translate translateAnchor scratch
              coord tile = Some s ->
            d ∈ drawn s ->
            draw_batchInvTransform d
            = mat4_mul (mat4_mul (placementInvProjMatrix bucket)
                                 (glCoordMatrix (transform painter)))
                       (placementViewportMatrix bucket)).
  { clear. intros fuel painter layer translate translateAnchor scratch coord
      tile bucket s d Hbucket Hrun Hd.
    pose proof (circle_tile_draws
                  (fun d => draw_batchInvTransform d = reproject bucket painter)
                  fuel painter layer translate translateAnchor scratch coord
                  tile bucket s Hbucket (fun _ => eq_refl) Hrun) as Hall.
    rewrite Forall_forall in Hall. by rewrite (Hall d Hd). }
  split; [by eapply Hall |].
  intros E1 E2 E3.
  rewrite (Hall _ _ _ _ _ _ _ _ _ _ _ Hbucket Hrun Hd).
  rewrite (Hall _ _ _ _ _ _ _ _ _ _ _ Hbucket' Hrun' Hd').
  by rewrite E1, E2, E3.
Qed.

Lemma tile_posMatrix_translated painter coord tile translate translateAnchor :
  translated translate = true ->
  tile_posMatrix painter coord tile translate translateAnchor
  = translatePosMatrix painter (posMatrix coord) tile translate translateAnchor.
Proof. intros Ht. unfold tile_posMatrix. by rewrite Ht. Qed.

Lemma tile_posMatrix_untranslated painter coord tile translate translateAnchor :
  translated translate = false ->
  tile_posMatrix painter coord tile translate translateAnchor = posMatrix coord.
Proof. intros Ht. unfold tile_posMatrix. by rewrite Ht. Qed.

Lemma box_tile_posMatrix painter translate translateAnchor isText coord tile l :
  l ∈ box_tile painter translate translateAnchor isText coord tile ->
  box_posMatrix l = tile_posMatrix painter coord tile translate translateAnchor.
Proof.
  unfold box_tile. intros Hl.
  destruct (getBucket tile) as [bucket |]; [| by apply elem_of_nil in Hl].
  destruct (if isText then textCollisionBox bucket else iconCollisionBox bucket);
    [| by apply elem_of_nil in Hl].
  by apply list_elem_of_singleton in Hl as ->.
Qed.

(** C6, as the code has it.  With a non-zero translate, in any anchor
    space, the matrix of the box path and the forward transform of the
    circle path are both [translatePosMatrix(coord.posMatrix, tile,
    translate, translateAnchor)], where the run without translate has
    [coord.posMatrix] for both; the inverse transform of the circle path
    is the same in the two runs. *)
Theorem translate_reaches_both_paths (fuel : nat) painter layer
    (translate translate0 : number * number) translateAnchor isText
    (scratch : list f32) coord tile bucket s s0
    (Hmoved : translated translate = true)
    (Hstill : translated translate0 = false)
    (Hbucket : getBucket tile = Some bucket)
    (Hrun : circle_tile fuel painter layer translate translateAnchor scratch
              coord tile = Some s)
    (Hrun0 : circle_tile fuel painter layer translate0 translateAnchor scratch
               coord tile = Some s0) :
  (forall l, l ∈ box_tile painter translate translateAnchor isText coord tile ->
     box_posMatrix l
     = translatePosMatrix painter (posMatrix coord) tile translate translateAnchor) /\
  (forall l, l ∈ box_tile painter translate0 translateAnchor isText coord tile ->
     box_posMatrix l = posMatrix coord) /\
  (forall d, d ∈ drawn s ->
     draw_batchTransform d
     = translatePosMatrix painter (posMatrix coord) tile translate translateAnchor /\
     draw_batchInvTransform d = reproject bucket painter) /\
  (forall d0, d0 ∈ drawn s0 ->
     draw_batchTransform d0 = posMatrix coord /\
     draw_batchInvTransform d0 = reproject bucket painter).
Proof.
  split; [| split; [| split]].
  - intros l Hl. rewrite (box_tile_posMatrix _ _ _ _ _ _ _ Hl).
    by apply tile_posMatrix_translated.
  - intros l Hl. rewrite (box_tile_posMatrix _ _ _ _ _ _ _ Hl).
    by apply tile_posMatrix_untranslated.
  - intros d Hd.
    rewrite <- (tile_posMatrix_translated painter coord tile translate
                  translateAnchor Hmoved).
    pose proof (circle_tile_draws
                  (fun d => draw_batchTransform d
                            = tile_posMatrix painter coord tile translate translateAnchor
                            /\ draw_batchInvTransform d = reproject bucket painter)
                  fuel painter layer translate translateAnchor scratch coord
                  tile bucket s Hbucket (fun _ => conj eq_refl eq_refl) Hrun) as Hall.
    rewrite Forall_forall in Hall. by apply Hall.
  - intros d Hd.
    rewrite <- (tile_posMatrix_untranslated painter coord tile translate0
                  translateAnchor Hstill).
    pose proof (circle_tile_draws
                  (fun d => draw_batchTransform d
                            = tile_posMatrix painter coord tile translate0 translateAnchor
                            /\ draw_batchInvTransform d = reproject bucket painter)
                  fuel painter layer translate0 translateAnchor scratch coord
                  tile bucket s0 Hbucket (fun _ => conj eq_refl eq_refl) Hrun0) as Hall.
    rewrite Forall_forall in Hall. by apply Hall.
Qed.

End Tiles.

(** ** Tiles with nothing to draw *)

Section Skipping.
Context `{Externals}.
Implicit Types (painter : Painter) (layer : Layer) (tile : Tile)
  (bucket : SymbolBucket) (sourceCache : OverscaledTileID -> Tile)
  (coords : list OverscaledTileID).

Lemma circle_tile_returns (fuel : nat) painter layer translate translateAnchor
    (scratch : list f32) coord tile :
  (forall bucket, getBucket tile = Some bucket ->
     (Z.to_nat (arr_length (collisionCircleArrayTemp bucket)) < fuel)%nat) ->
  is_Some (circle_tile fuel painter layer translate translateAnchor scratch
             coord tile).
Proof.
  intros Hfuel. unfold circle_tile.
  destruct (getBucket tile) as [bucket |]; [| by eexists].
  destruct (arr_length (collisionCircleArrayTemp bucket) =? 0); [by eexists |].
  destruct (while_loop_terminates layer
              (tile_posMatrix painter coord tile translate translateAnchor)
              (reproject bucket painter)
              (collisionCircleArrayTemp bucket) scratch fuel (enter scratch))
    as (s & -> & _); [constructor | | by eexists].
  simpl. rewrite Z.sub_0_r. by apply Hfuel.
Qed.

Lemma circle_tiles_return (fuel : nat) painter sourceCache layer translate
    translateAnchor coords acc :
  (forall coord bucket, coord ∈ coords ->
     getBucket (sourceCache coord) = Some bucket ->
     (Z.to_nat (arr_length (collisionCircleArrayTemp bucket)) < fuel)%nat) ->
  is_Some (circle_tiles fuel painter sourceCache layer translate translateAnchor
             coords acc).
Proof.
  revert acc. induction coords as [| coord coords IH]; intros acc Hfuel.
  - by eexists.
  - cbn [circle_tiles]. destruct acc as [[draws scratch] log].
    destruct (circle_tile_returns fuel painter layer translate translateAnchor
                scratch coord (sourceCache coord)) as [s ->].
    + intros bucket Hbucket. apply (Hfuel coord bucket); [left | done].
    + simpl. apply IH. intros c b Hc. apply Hfuel. by right.
Qed.

Lemma circle_tile_skipped (fuel : nat) painter layer translate translateAnchor
    (scratch : list f32) coord tile :
  nothing_to_batch tile ->
  circle_tile fuel painter layer translate translateAnchor scratch coord tile
  = Some (enter scratch).
Proof.
  unfold nothing_to_batch, circle_tile.
  destruct (getBucket tile) as [bucket |]; [| done].
  by intros ->.
Qed.

Lemma circle_tiles_skipped (fuel : nat) painter sourceCache layer translate
    translateAnchor coords acc :
  (forall coord, coord ∈ coords -> nothing_to_batch (sourceCache coord)) ->
  circle_tiles fuel painter sourceCache layer translate translateAnchor coords acc
  = Some acc.
Proof.
  revert acc. induction coords as [| coord coords IH]; intros acc Hskip; [done |].
  cbn [circle_tiles]. destruct acc as [[draws scratch] log].
  rewrite circle_tile_skipped by (apply Hskip; left).
  simpl. rewrite !app_nil_r. apply IH. intros c Hc. apply Hskip. by right.
Qed.

(** C8.  A tile without a bucket is skipped by both paths, a bucket
    without the requested collision-box buffers is skipped by the box
    path, a bucket without circles is skipped by the circle path: no draw
    call, the scratch array as it was, whatever the fuel.  A frame all of
    whose tiles have nothing to batch returns with no circle draw call and
    an untouched scratch array; and every frame returns, once the fuel
    exceeds the circle counts. *)
Theorem absent_data_is_skipped (fuel : nat) painter sourceCache layer coords
    translate translateAnchor isText (scratch : list f32) coord tile :
  (getBucket tile = None ->
     box_tile painter translate translateAnchor isText coord tile = [] /\
     exists s,
       circle_tile fuel painter layer translate translateAnchor scratch coord tile
       = Some s /\ drawn s = [] /\ quadProperties s = scratch /\ copied s = []) /\
  (forall bucket, getBucket tile = Some bucket ->
     (if isText then textCollisionBox bucket else iconCollisionBox bucket) = None ->
     box_tile painter translate translateAnchor isText coord tile = []) /\
  (forall bucket, getBucket tile = Some bucket ->
     arr_length (collisionCircleArrayTemp bucket) = 0 ->
     exists s,
       circle_tile fuel painter layer translate translateAnchor scratch coord tile
       = Some s /\ drawn s = [] /\ quadProperties s = scratch /\ copied s = []) /\
  ((forall c, c ∈ coords -> nothing_to_batch (sourceCache c)) ->
     exists frame,
       drawCollisionDebug fuel painter sourceCache layer coords translate
         translateAnchor isText = Some frame /\
       frame_triangles frame = [] /\
       frame_quadProperties frame = new_quadProperties /\
       frame_copied frame = []) /\
  ((forall c bucket, c ∈ coords -> getBucket (sourceCache c) = Some bucket ->
      (Z.to_nat (arr_length (collisionCircleArrayTemp bucket)) < fuel)%nat) ->
     is_Some (drawCollisionDebug fuel painter sourceCache layer coords translate
                translateAnchor isText)).
Proof.
  split; [| split; [| split; [| split]]].
  - intros Hnone. split; [unfold box_tile; by rewrite Hnone |].
    exists (enter scratch). split; [| done].
    apply circle_tile_skipped. unfold nothing_to_batch. by rewrite Hnone.
  - intros bucket Hbucket Hbuffers. unfold box_tile.
    by rewrite Hbucket, Hbuffers.
  - intros bucket Hbucket Hempty.
    exists (enter scratch). split; [| done].
    apply circle_tile_skipped. unfold nothing_to_batch. by rewrite Hbucket.
  - intros Hskip. unfold drawCollisionDebug.
    rewrite circle_tiles_skipped by exact Hskip. simpl. by eexists.
  - intros Hfuel. unfold drawCollisionDebug.
    destruct (circle_tiles_return fuel painter sourceCache
                (ensure_indexBuffer2 (ensure_vertexBuffer2 layer))
                translate translateAnchor coords ([], new_quadProperties, []) Hfuel)
      as [[[draws scratch'] log] ->].
    simpl. by eexists.
Qed.

End Skipping.

(** ** A whole frame *)

Section Frames.
Context `{Externals}.
Implicit Types (painter : Painter) (layer : Layer)
  (sourceCache : OverscaledTileID -> Tile) (coords : list OverscaledTileID).

(** The tile loop of the circle path: every tile finds the scratch array
    with its [64 * 4] floats, and the draw calls of the frame are those of
    the tiles, tile after tile. *)
Lemma circle_tiles_spec (fuel : nat) painter sourceCache layer translate
    translateAnchor coords (draws : list TrianglesDraw) (scratch : list f32)
    (log : list Z) :
  Z.of_nat (length scratch) = maxQuadsPerDrawCall * 4 ->
  (forall coord bucket, coord ∈ coords ->
     getBucket (sourceCache coord) = Some bucket ->
     0 <= arr_length (collisionCircleArrayTemp bucket) < Z.of_nat fuel) ->
  exists (dss : list (list TrianglesDraw)) (scratch' : list f32) (log' : list Z),
    circle_tiles fuel painter sourceCache layer translate translateAnchor coords
      (draws, scratch, log)
    = Some (draws ++ concat dss, scratch', log') /\
    Forall2 (tile_batches painter sourceCache layer translate translateAnchor)
            coords dss /\
    Z.of_nat (length scratch') = maxQuadsPerDrawCall * 4.
Proof.
  revert draws scratch log.
  induction coords as [| coord coords IH]; intros draws scratch log Hlen Hfuel.
  - exists [], scratch, log. simpl. rewrite app_nil_r.
    split; [done |]. split; [constructor | done].
  - cbn [circle_tiles].
    assert (Htile : exists s,
              circle_tile fuel painter layer translate translateAnchor scratch
                coord (sourceCache coord) = Some s /\
              tile_batches painter sourceCache layer translate translateAnchor
                coord (drawn s) /\
              Z.of_nat (length (quadProperties s)) = maxQuadsPerDrawCall * 4).
    { unfold tile_batches.
      destruct (getBucket (sourceCache coord)) as [bucket |] eqn:Hbucket.
      - destruct (Hfuel coord bucket) as [Hn Hlt]; [left | done |].
        destruct (circle_tile_spec fuel painter layer translate translateAnchor
                    scratch coord (sourceCache coord) bucket Hbucket Hn Hlen Hlt)
          as (s & Hrun & Hds & _ & Hlen').
        by exists s.
      - exists (enter scratch). unfold circle_tile. rewrite Hbucket. done. }
    destruct Htile as (s & -> & Hds & Hlen'). simpl.
    destruct (IH (draws ++ drawn s) (quadProperties s) (log ++ copied s) Hlen')
      as (dss & scratch' & log' & Hrun & Hdss & Hlen'').
    { intros c b Hc. apply Hfuel. by right. }
    exists (drawn s :: dss), scratch', log'.
    rewrite Hrun. simpl. rewrite <- app_assoc.
    split; [done |]. split; [by constructor | done].
Qed.

Lemma ensure_buffers layer :
  is_Some (vertexBuffer2 (ensure_indexBuffer2 (ensure_vertexBuffer2 layer))) /\
  is_Some (indexBuffer2 (ensure_indexBuffer2 (ensure_vertexBuffer2 layer))).
Proof.
  destruct layer as [[vb |] [ib |]]; split; eexists; reflexivity.
Qed.

(** X3.  One call of [drawCollisionDebug] returns, and its circle draw
    calls are the batches of the tiles, tile after tile in the order of
    [coords], none for a tile without a bucket: a batch holds circles of
    one tile only, with the transforms of that tile and the template
    buffers of the layer, which holds both of them afterwards. *)
Lemma drawCollisionDebug_spec (fuel : nat) painter sourceCache layer coords
    translate translateAnchor isText :
  (forall coord bucket, coord ∈ coords ->
     getBucket (sourceCache coord) = Some bucket ->
     0 <= arr_length (collisionCircleArrayTemp bucket) < Z.of_nat fuel) ->
  exists frame (dss : list (list TrianglesDraw)),
    drawCollisionDebug fuel painter sourceCache layer coords translate
      translateAnchor isText = Some frame /\
    frame_triangles frame = concat dss /\
    Forall2 (tile_batches painter sourceCache (frame_layer frame) translate
               translateAnchor)
            coords dss /\
    is_Some (vertexBuffer2 (frame_layer frame)) /\
    is_Some (indexBuffer2 (frame_layer frame)).
Proof.
  intros Hfuel. unfold drawCollisionDebug.
  destruct (circle_tiles_spec fuel painter sourceCache
              (ensure_indexBuffer2 (ensure_vertexBuffer2 layer))
              translate translateAnchor coords [] new_quadProperties [])
    as (dss & scratch' & log' & -> & Hdss & _); [| exact Hfuel |].
  { unfold new_quadProperties. rewrite length_replicate.
    unfold maxQuadsPerDrawCall. lia. }
  simpl. eexists _, dss. split; [reflexivity |]. simpl.
  split; [done |]. split; [exact Hdss |].
  apply ensure_buffers.
Qed.

End Frames.

(** ** The statements on concrete tiles *)

Lemma circle_path_draw_calls_witness :
  0 <= arr_length (collisionCircleArrayTemp (ZModel.bucket 130)) /\
  exists s,
    ZModel.run (0, 0) 130 = Some s /\
    draw_quads <$> drawn s = [64; 64; 2] /\
    Z.of_nat (length (drawn s)) = 3.
Proof.
  assert (Hn : 0 <= arr_length (collisionCircleArrayTemp (ZModel.bucket 130)))
    by (simpl; lia).
  assert (Hscratch : Z.of_nat (length (@new_quadProperties ZModel.ZExternals))
                     = maxQuadsPerDrawCall * 4) by (vm_compute; reflexivity).
  assert (Hfuel : arr_length (collisionCircleArrayTemp (ZModel.bucket 130))
                  < Z.of_nat 200) by (simpl; lia).
  split; [exact Hn |].
  destruct (circle_path_draw_calls (H := ZModel.ZExternals) 200
              (ZModel.painter ZModel.identity) ZModel.ready_layer (0, 0)
              anchor_viewport new_quadProperties ZModel.coord (ZModel.tile 130)
              (ZModel.bucket 130) eq_refl Hn Hscratch Hfuel)
    as (s & Hrun & Hlen & _ & Hsizes & _).
  exists s. split; [exact Hrun |]. split; [exact Hsizes | exact Hlen].
Defined.

Lemma packing_step_copies_witness :
  let arr := ZModel.circles 130 in
  let s := @enter ZModel.ZExternals new_quadProperties in
  batchSize arr s = 64 /\
  quadProperties (pack arr s) !! Z.to_nat ((batchQuadIdx s + 5) * 4 + 2)
  = float32 arr !! Z.to_nat ((quadOffset s + 5) * 4 + 2) /\
  batchQuadIdx (pack arr s) = batchQuadIdx s + batchSize arr s /\
  quadOffset (pack arr s) = quadOffset s + batchSize arr s.
Proof.
  intros arr s.
  assert (Hwf : arr_length arr * 4 <= Z.of_nat (length (float32 arr)))
    by (vm_compute; discriminate).
  assert (Hb : 0 <= batchQuadIdx s <= maxQuadsPerDrawCall)
    by (vm_compute; split; discriminate).
  assert (Hq : 0 <= quadOffset s <= arr_length arr)
    by (vm_compute; split; discriminate).
  assert (Hlen : Z.of_nat (length (quadProperties s)) = maxQuadsPerDrawCall * 4)
    by (vm_compute; reflexivity).
  assert (Hfuel : arr_length arr < Z.of_nat 200) by (vm_compute; reflexivity).
  destruct (packing_step_copies (H := ZModel.ZExternals) 200 ZModel.ready_layer
              ZModel.identity ZModel.identity arr new_quadProperties s
              Hwf Hb Hq Hlen Hlen Hfuel) as (Hdata & Hb' & Hq' & _).
  assert (Hsize : batchSize arr s = 64) by (vm_compute; reflexivity).
  split; [exact Hsize |]. split; [| split; [exact Hb' | exact Hq']].
  apply Hdata; rewrite ?Hsize; lia.
Defined.

(** The runs of the model: they return, and they draw. *)
Lemma model_run_spec (translate : Z * Z) (n : Z) :
  0 < n < 200 ->
  exists s d,
    ZModel.run translate n = Some s /\
    d ∈ drawn s /\
    Forall2 (batch_of ZModel.ready_layer
               (tile_posMatrix (ZModel.painter ZModel.identity) ZModel.coord
                  (ZModel.tile n) translate anchor_viewport)
               (reproject (ZModel.bucket n) (ZModel.painter ZModel.identity))
               (ZModel.circles n))
            (drawn s) (spec_batches n).
Proof.
  intros Hn.
  assert (Hscratch : Z.of_nat (length (@new_quadProperties ZModel.ZExternals))
                     = maxQuadsPerDrawCall * 4) by (vm_compute; reflexivity).
  destruct (circle_tile_spec (H := ZModel.ZExternals) 200
              (ZModel.painter ZModel.identity) ZModel.ready_layer translate
              anchor_viewport new_quadProperties ZModel.coord (ZModel.tile n)
              (ZModel.bucket n) eq_refl)
    as (s & Hrun & Hds & _ & _); [simpl; lia | exact Hscratch | simpl; lia |].
  simpl in Hds.
  destruct (drawn s) as [| d ds] eqn:Hdrawn.
  - apply Forall2_length in Hds.
    assert (Hcount : Z.of_nat (length (spec_batches n)) = spec_draw_calls n)
      by (apply spec_batches_length; lia).
    rewrite <- Hds in Hcount. unfold spec_draw_calls in Hcount. simpl in Hcount.
    quads_lia.
  - exists s, d. split; [exact Hrun |]. rewrite Hdrawn. split; [left | exact Hds].
Qed.

(** The run of the model on a tile of two circles: one draw call. *)
Lemma model_run_two (translate : Z * Z) :
  exists s d,
    ZModel.run translate 2 = Some s /\
    drawn s = [d] /\
    batch_of ZModel.ready_layer
      (tile_posMatrix (ZModel.painter ZModel.identity) ZModel.coord
         (ZModel.tile 2) translate anchor_viewport)
      (reproject (ZModel.bucket 2) (ZModel.painter ZModel.identity))
      (ZModel.circles 2) d (0, 2).
Proof.
  destruct (model_run_spec translate 2) as (s & _ & Hrun & _ & Hds); [lia |].
  assert (Hplan : spec_batches 2 = [(0, 2)]) by (vm_compute; reflexivity).
  rewrite Hplan in Hds.
  destruct (drawn s) as [| d ds] eqn:Hdrawn; [inversion Hds |].
  apply Forall2_cons_1 in Hds as [Hd Hnil].
  apply Forall2_nil_inv_r in Hnil as ->.
  exists s, d. split; [exact Hrun |]. split; [exact Hdrawn | exact Hd].
Qed.

Lemma reprojection_is_fixed_product_witness :
  exists s d s' d',
    ZModel.run (1, 0) 2 = Some s /\ d ∈ drawn s /\
    ZModel.run (0, 0) 130 = Some s' /\ d' ∈ drawn s' /\
    draw_batchInvTransform d
    = ZModel.mul (ZModel.mul (ZModel.scaling 2) ZModel.identity)
                 (ZModel.translate3 ZModel.identity 5 6 0) /\
    draw_batchInvTransform d' = draw_batchInvTransform d.
Proof.
  destruct (model_run_spec (1, 0) 2) as (s & d & Hrun & Hd & _); [lia |].
  destruct (model_run_spec (0, 0) 130) as (s' & d' & Hrun' & Hd' & _); [lia |].
  exists s, d, s', d'.
  destruct (reprojection_is_fixed_product (H := ZModel.ZExternals)
              200 (ZModel.painter ZModel.identity) ZModel.ready_layer (1, 0)
              anchor_viewport new_quadProperties ZModel.coord (ZModel.tile 2)
              (ZModel.bucket 2) s d
              200 (ZModel.painter ZModel.identity) ZModel.ready_layer (0, 0)
              anchor_viewport new_quadProperties ZModel.coord (ZModel.tile 130)
              (ZModel.bucket 130) s' d'
              eq_refl Hrun Hd eq_refl Hrun' Hd') as [Hproduct Hsame].
  split; [exact Hrun |]. split; [exact Hd |]. split; [exact Hrun' |].
  split; [exact Hd' |]. split; [exact Hproduct |].
  apply Hsame; reflexivity.
Defined.

(** C5, as the specification words it, fails on a tile of two circles: the
    only draw call covers two quads and is given 256 floats, not 8. *)
Lemma uploaded_region_counterexample :
  option_map
    (fun s => map (fun d => (draw_quads d, length (draw_quadProperties d)))
                  (drawn s))
    (ZModel.run (0, 0) 2) = Some [(2, 256%nat)] /\
  exists s d,
    ZModel.run (0, 0) 2 = Some s /\
    drawn s = [d] /\
    draw_quads d = 2 /\
    ~ (Z.of_nat (length (draw_quadProperties d)) = draw_quads d * 4).
Proof.
  split; [vm_compute; reflexivity |].
  destruct (model_run_two (0, 0)) as (s & d & Hrun & Hdrawn & Hd).
  exists s, d. split; [exact Hrun |]. split; [exact Hdrawn |].
  pose proof (batch_of_draw_quads _ _ _ _ _ _ Hd) as Hquads.
  destruct Hd as (_ & _ & _ & _ & _ & Hlen & _).
  simpl in Hquads. split; [exact Hquads |].
  rewrite Hlen, Hquads. unfold maxQuadsPerDrawCall. lia.
Qed.

Lemma translate_reaches_both_paths_witness :
  @translated ZModel.ZExternals (1, 0) = true /\
  @translated ZModel.ZExternals (0, 0) = false /\
  exists s s0,
    ZModel.run (1, 0) 2 = Some s /\
    ZModel.run (0, 0) 2 = Some s0 /\
    (forall d, d ∈ drawn s ->
       draw_batchTransform d = ZModel.translate3 (ZModel.scaling 3) 1 0 0 /\
       draw_batchInvTransform d
       = reproject (ZModel.bucket 2) (ZModel.painter ZModel.identity)) /\
    (forall d0, d0 ∈ drawn s0 ->
       draw_batchTransform d0 = ZModel.scaling 3 /\
       draw_batchInvTransform d0
       = reproject (ZModel.bucket 2) (ZModel.painter ZModel.identity)).
Proof.
  assert (Hmoved : @translated ZModel.ZExternals (1, 0) = true) by reflexivity.
  assert (Hstill : @translated ZModel.ZExternals (0, 0) = false) by reflexivity.
  destruct (model_run_two (1, 0)) as (s & _ & Hrun & _).
  destruct (model_run_two (0, 0)) as (s0 & _ & Hrun0 & _).
  split; [exact Hmoved |]. split; [exact Hstill |]. exists s, s0.
  destruct (translate_reaches_both_paths (H := ZModel.ZExternals) 200
              (ZModel.painter ZModel.identity) ZModel.ready_layer (1, 0) (0, 0)
              anchor_viewport true new_quadProperties ZModel.coord
              (ZModel.tile 2) (ZModel.bucket 2) s s0
              Hmoved Hstill eq_refl Hrun Hrun0) as (_ & _ & Hcircle & Hcircle0).
  split; [exact Hrun |]. split; [exact Hrun0 |].
  split; [exact Hcircle | exact Hcircle0].
Defined.

(** C6, as the specification words it, fails on a tile of two circles with
    the translate [(1, 0)] in viewport anchor space: the matrix of the box
    path changes, and the forward transform of the circle path changes
    with it. *)
Lemma translate_circle_counterexample :
  let painter := ZModel.painter ZModel.identity in
  let box (translate : Z * Z) : list (list Z) :=
    map (@box_posMatrix ZModel.ZExternals)
        (box_tile painter translate anchor_viewport true
           ZModel.coord (ZModel.tile 2)) in
  let circle (translate : Z * Z) : option (list (list Z)) :=
    option_map (fun s => map (@draw_batchTransform ZModel.ZExternals) (drawn s))
               (ZModel.run translate 2) in
  @translated ZModel.ZExternals (1, 0) = true /\
  box (1, 0) = [ZModel.translate3 (ZModel.scaling 3) 1 0 0] /\
  box (0, 0) = [ZModel.scaling 3] /\
  circle (1, 0) = Some [ZModel.translate3 (ZModel.scaling 3) 1 0 0] /\
  circle (0, 0) = Some [ZModel.scaling 3] /\
  exists s d s0 d0,
    ZModel.run (1, 0) 2 = Some s /\ drawn s = [d] /\
    ZModel.run (0, 0) 2 = Some s0 /\ drawn s0 = [d0] /\
    ~ (box (1, 0) <> box (0, 0) /\
       draw_batchTransform d = draw_batchTransform d0 /\
       draw_batchInvTransform d = draw_batchInvTransform d0).
Proof.
  intros painter box circle.
  split; [reflexivity |]. split; [vm_compute; reflexivity |].
  split; [vm_compute; reflexivity |]. split; [vm_compute; reflexivity |].
  split; [vm_compute; reflexivity |].
  destruct (model_run_two (1, 0)) as (s & d & Hrun & Hdrawn & Hd).
  destruct (model_run_two (0, 0)) as (s0 & d0 & Hrun0 & Hdrawn0 & Hd0).
  exists s, d, s0, d0.
  split; [exact Hrun |]. split; [exact Hdrawn |].
  split; [exact Hrun0 |]. split; [exact Hdrawn0 |].
  intros (_ & Hsame & _).
  destruct Hd as (Hbt & _). destruct Hd0 as (Hbt0 & _).
  rewrite Hbt, Hbt0 in Hsame. vm_compute in Hsame. discriminate Hsame.
Qed.

Lemma batch_never_exceeds_capacity_witness :
  let arr := ZModel.circles 130 in
  let s := @loop_body ZModel.ZExternals ZModel.ready_layer ZModel.identity
             ZModel.identity arr (enter new_quadProperties) in
  @loop_top ZModel.ZExternals ZModel.ready_layer ZModel.identity ZModel.identity
    arr new_quadProperties s /\
  batchQuadIdx s <= maxQuadsPerDrawCall /\
  Forall (fun d => draw_quads d <= maxQuadsPerDrawCall) (drawn s).
Proof.
  intros arr s.
  assert (Htop : @loop_top ZModel.ZExternals ZModel.ready_layer ZModel.identity
                   ZModel.identity arr new_quadProperties s).
  { apply loop_top_next; [apply loop_top_enter | reflexivity]. }
  destruct (batch_never_exceeds_capacity (H := ZModel.ZExternals)
              ZModel.ready_layer ZModel.identity ZModel.identity arr
              new_quadProperties s Htop) as (Hb & Hd & _).
  split; [exact Htop |]. split; [exact Hb | exact Hd].
Defined.

Lemma absent_data_is_skipped_witness :
  getBucket ZModel.no_bucket = None /\
  box_tile (ZModel.painter ZModel.identity) (1, 0) anchor_viewport true
    ZModel.coord ZModel.no_bucket = [] /\
  exists s,
    circle_tile 0 (ZModel.painter ZModel.identity) ZModel.ready_layer (1, 0)
      anchor_viewport new_quadProperties ZModel.coord ZModel.no_bucket = Some s /\
    drawn s = [] /\ quadProperties s = new_quadProperties.
Proof.
  destruct (absent_data_is_skipped (H := ZModel.ZExternals) 0
              (ZModel.painter ZModel.identity) (fun _ => ZModel.no_bucket)
              ZModel.ready_layer [ZModel.coord] (1, 0) anchor_viewport true
              new_quadProperties ZModel.coord ZModel.no_bucket)
    as (Hnone & _).
  destruct (Hnone eq_refl) as (Hbox & s & Hrun & Hdrawn & Hscratch & _).
  split; [reflexivity |]. split; [exact Hbox |].
  exists s. split; [exact Hrun |]. split; [exact Hdrawn | exact Hscratch].
Defined.

Lemma packing_loop_terminates_witness :
  (Z.to_nat (arr_length (ZModel.circles 130)) < 200)%nat /\
  exists s',
    @while_loop ZModel.ZExternals 200 ZModel.ready_layer ZModel.identity
      ZModel.identity (ZModel.circles 130) (enter new_quadProperties) = Some s' /\
    loop_guard (ZModel.circles 130) s' = false.
Proof.
  assert (Hfuel : (Z.to_nat (arr_length (ZModel.circles 130)) < 200)%nat)
    by (simpl; lia).
  destruct (packing_loop_terminates (H := ZModel.ZExternals) ZModel.ready_layer
              ZModel.identity ZModel.identity (ZModel.circles 130)
              new_quadProperties) as [_ Hends].
  destruct (Hends 200%nat Hfuel) as (s' & Hrun & _ & Hguard).
  split; [exact Hfuel |]. exists s'. split; [exact Hrun | exact Hguard].
Defined.

(** * Further properties of the code *)

(** ** The template buffers *)

Lemma vertex_template_sequential_witness :
  0 <= 255 < maxVerticesPerDrawCall /\
  vertexBuffer2_array !! Z.to_nat (2 * 255) = Some 255 /\
  vertexBuffer2_array !! Z.to_nat (2 * 255 + 1) = Some 255.
Proof.
  assert (Hv : 0 <= 255 < maxVerticesPerDrawCall)
    by (vm_compute; split; [discriminate | reflexivity]).
  split; [exact Hv |]. exact (vertex_template_sequential 255 Hv).
Defined.

(** Every triangle of the index template uses the vertices of one quad,
    quad [t / 2] for triangle [t]. *)
Lemma index_template_triangle_quad (t : Z) :
  0 <= t < maxTrianglesPerDrawCall ->
  triangle_quad indexBuffer2_array t = Some (t / 2).
Proof.
  intros Ht.
  assert (Hall : Forall (fun t => triangle_quad indexBuffer2_array t = Some (t / 2))
                        (seqZ 0 maxTrianglesPerDrawCall)).
  { apply (bool_decide_unpack _). vm_compute. exact I. }
  rewrite Forall_seqZ in Hall. apply Hall. lia.
Qed.

(** ** The loop, iteration by iteration *)

Section Iterations.
Context `{Externals}.
Variables (layer : Layer) (batchTransform batchInvTransform : mat4)
  (arr : CollisionCircleArray) (scratch : list f32).
Implicit Types (s : BatchState) (d : TrianglesDraw).

Local Abbreviation n := (arr_length arr).
Local Abbreviation body := (loop_body layer batchTransform batchInvTransform arr).
Local Abbreviation while := (fun fuel => while_loop fuel layer batchTransform batchInvTransform arr).
Local Abbreviation top := (loop_top layer batchTransform batchInvTransform arr scratch).

(** One iteration from an empty batch, field by field. *)
Lemma loop_body_batch s :
  batchQuadIdx s = 0 ->
  loop_guard arr s = true ->
  batchSize arr s = Z.min (n - quadOffset s) maxQuadsPerDrawCall /\
  1 <= batchSize arr s <= maxQuadsPerDrawCall /\
  batchQuadIdx (body s)
  = (if batchSize arr s =? maxQuadsPerDrawCall then 0 else batchSize arr s) /\
  quadOffset (body s) = quadOffset s + batchSize arr s /\
  quadProperties (body s) = quadProperties (pack arr s) /\
  drawn (body s)
  = drawn s ++ (if batchSize arr s =? maxQuadsPerDrawCall
                then [draw_batch layer batchTransform batchInvTransform (pack arr s)]
                else []).
Proof.
  intros Hb Hguard. unfold loop_guard in Hguard. apply Z.ltb_lt in Hguard.
  destruct (pack_fields arr s) as (Fb & Fq & _ & Fdrawn & _).
  rewrite length_seqZ, Hb in Fb.
  assert (Hmin : batchSize arr s = Z.min (n - quadOffset s) maxQuadsPerDrawCall)
    by (unfold batchSize; rewrite Hb; f_equal; lia).
  assert (Hsize : 1 <= batchSize arr s <= maxQuadsPerDrawCall)
    by (rewrite Hmin; unfold maxQuadsPerDrawCall; lia).
  assert (Hpacked : batchQuadIdx (pack arr s) = batchSize arr s) by lia.
  split; [exact Hmin |]. split; [exact Hsize |].
  unfold loop_body, flush_full. rewrite Hpacked.
  destruct (batchSize arr s =? maxQuadsPerDrawCall); simpl.
  - unfold emit. rewrite Fdrawn. by rewrite Fq.
  - rewrite Fq, Fdrawn, app_nil_r. by rewrite Hpacked.
Qed.

Lemma loop_top_batches s :
  top s ->
  (batchQuadIdx s = 0 /\
   quadOffset s = maxQuadsPerDrawCall * Z.of_nat (length (drawn s)))
  \/ (0 < batchQuadIdx s < maxQuadsPerDrawCall /\ quadOffset s = n).
Proof.
  induction 1 as [| s Htop IH Hguard].
  - left. simpl. lia.
  - assert (Hb : batchQuadIdx s = 0 /\
                 quadOffset s = maxQuadsPerDrawCall * Z.of_nat (length (drawn s))).
    { destruct IH as [Hb | [_ Hq]]; [exact Hb |].
      unfold loop_guard in Hguard. apply Z.ltb_lt in Hguard. lia. }
    destruct Hb as [Hb Hq].
    destruct (loop_body_batch s Hb Hguard) as (Hmin & Hsize & Hb' & Hq' & _ & Hdrawn).
    rewrite Hb', Hq', Hdrawn.
    unfold loop_guard in Hguard. apply Z.ltb_lt in Hguard.
    destruct (Z.eqb_spec (batchSize arr s) maxQuadsPerDrawCall) as [Hfull | Hpart].
    + left. split; [done |]. rewrite length_app. simpl. lia.
    + right. lia.
Qed.

(** X10.  Whenever the guard of the circle loop holds, the batch in flight
    is empty and the cursor stands at 64 times the number of draw calls
    issued for the tile: an iteration never tops up a batch that an
    earlier iteration left partly filled, and the size of its batch is
    [min(n - quadOffset, 64)]. *)
Theorem iterations_start_empty_batches s
    (Htop : top s) (Hguard : loop_guard arr s = true) :
  batchQuadIdx s = 0 /\
  quadOffset s = maxQuadsPerDrawCall * Z.of_nat (length (drawn s)) /\
  batchSize arr s = Z.min (n - quadOffset s) maxQuadsPerDrawCall.
Proof.
  destruct (loop_top_batches s Htop) as [[Hb Hq] | [_ Hq]].
  - destruct (loop_body_batch s Hb Hguard) as (Hmin & _).
    split; [exact Hb |]. split; [exact Hq | exact Hmin].
  - unfold loop_guard in Hguard. apply Z.ltb_lt in Hguard. lia.
Qed.

Lemma while_loop_top (fuel : nat) s s' :
  top s -> while fuel s = Some s' -> top s' /\ loop_guard arr s' = false.
Proof.
  revert s. induction fuel as [| fuel IH]; intros s Htop Hrun; [discriminate Hrun |].
  cbn [while_loop] in Hrun. destruct (loop_guard arr s) eqn:Hguard.
  - apply (IH (body s)); [by constructor | exact Hrun].
  - by injection Hrun as <-.
Qed.

(** After a flush nothing is written before the next packing step. *)
Lemma loop_top_last_draw s :
  top s ->
  batchQuadIdx s = 0 ->
  forall d, last (drawn s) = Some d -> draw_quadProperties d = quadProperties s.
Proof.
  induction 1 as [| s Htop IH Hguard]; intros Hzero d Hlast.
  - discriminate Hlast.
  - assert (Hb : batchQuadIdx s = 0).
    { destruct (loop_top_batches s Htop) as [[Hb _] | [_ Hq]]; [exact Hb |].
      unfold loop_guard in Hguard. apply Z.ltb_lt in Hguard. lia. }
    destruct (loop_body_batch s Hb Hguard) as (_ & Hsize & Hb' & _ & Hqp & Hdrawn).
    rewrite Hdrawn in Hlast. rewrite Hb' in Hzero.
    destruct (batchSize arr s =? maxQuadsPerDrawCall); [| lia].
    rewrite last_snoc in Hlast. injection Hlast as <-.
    by rewrite Hqp.
Qed.

(** The scratch array keeps its length through the loop. *)
Lemma while_loop_length (fuel : nat) s s' :
  while fuel s = Some s' ->
  length (quadProperties s') = length (quadProperties s).
Proof.
  revert s. induction fuel as [| fuel IH]; intros s Hrun; [discriminate Hrun |].
  cbn [while_loop] in Hrun. destruct (loop_guard arr s).
  - rewrite (IH _ Hrun).
    destruct (pack_fields arr s) as (_ & _ & Flen & _).
    unfold loop_body, flush_full.
    by destruct (batchQuadIdx (pack arr s) =? maxQuadsPerDrawCall).
  - by injection Hrun as <-.
Qed.

(** What the loop leaves in the slots past the leftover batch: the tail of
    the last full batch if there was one, what the array held before
    otherwise. *)
Lemma while_loop_stale (fuel : nat) s :
  batchQuadIdx s = 0 ->
  0 <= quadOffset s <= n ->
  Z.of_nat (length (quadProperties s)) = maxQuadsPerDrawCall * 4 ->
  n - quadOffset s < Z.of_nat fuel ->
  exists s',
    while fuel s = Some s' /\
    forall k j : Z,
      (n - quadOffset s) mod maxQuadsPerDrawCall <= k < maxQuadsPerDrawCall ->
      0 <= j < 4 ->
      quadProperties s' !! Z.to_nat (k * 4 + j)
      = if maxQuadsPerDrawCall <=? n - quadOffset s
        then Some (circle_float arr
                     ((quadOffset s
                       + maxQuadsPerDrawCall
                         * ((n - quadOffset s) / maxQuadsPerDrawCall - 1)
                       + k) * 4 + j))
        else quadProperties s !! Z.to_nat (k * 4 + j).
Proof.
  revert s. induction fuel as [| fuel IH]; intros s Hb Hq Hlen Hfuel; [lia |].
  cbn [while_loop].
  destruct (loop_guard arr s) eqn:Hguard.
  - pose proof Hguard as Hlt. unfold loop_guard in Hlt. apply Z.ltb_lt in Hlt.
    destruct (loop_body_batch s Hb Hguard) as (Hmin & Hsize & Hb' & Hq' & Hqp & _).
    destruct (pack_fields arr s) as (_ & _ & Flen & _).
    destruct (pack_data arr s) as [Hnew Hold];
      [rewrite Hb; unfold maxQuadsPerDrawCall; lia | exact Hlen |].
    rewrite Hb in Hnew, Hold.
    destruct (Z_le_gt_dec (quadOffset s + maxQuadsPerDrawCall) n) as [Hfull | Hpart].
    + (* a full batch *)
      assert (Hbs : batchSize arr s = maxQuadsPerDrawCall) by lia.
      rewrite Hbs in *. rewrite Z.eqb_refl in Hb'.
      destruct (IH (body s)) as (s' & Hrun & Hstale).
      { exact Hb'. }
      { rewrite Hq'. unfold maxQuadsPerDrawCall in *. lia. }
      { by rewrite Hqp, Flen. }
      { rewrite Hq'. unfold maxQuadsPerDrawCall in *. lia. }
      exists s'. split; [exact Hrun |].
      intros k j Hk Hj.
      rewrite Hq' in Hstale.
      rewrite (Hstale k j) by quads_lia.
      destruct (Z.leb_spec maxQuadsPerDrawCall (n - quadOffset s)) as [_ | Hno];
        [| lia].
      destruct (Z.leb_spec maxQuadsPerDrawCall
                  (n - (quadOffset s + maxQuadsPerDrawCall))) as [Hmore | Hlast].
      * do 2 f_equal. quads_lia.
      * rewrite Hqp. replace (k * 4 + j) with ((0 + k) * 4 + j) by lia.
        rewrite (Hnew k j) by quads_lia.
        do 2 f_equal. quads_lia.
    + (* the last, partial batch *)
      assert (Hbs : batchSize arr s = n - quadOffset s) by lia.
      destruct fuel as [| fuel]; [lia |].
      exists (body s). cbn [while_loop]. unfold loop_guard at 1.
      rewrite Hq', Hbs.
      replace (quadOffset s + (n - quadOffset s)) with n by lia.
      rewrite Z.ltb_irrefl. split; [done |].
      intros k j Hk Hj.
      destruct (Z.leb_spec maxQuadsPerDrawCall (n - quadOffset s)) as [Hno | _];
        [lia |].
      rewrite Hqp. apply Hold. rewrite Hbs. quads_lia.
  - unfold loop_guard in Hguard. apply Z.ltb_ge in Hguard.
    exists s. split; [done |]. intros k j Hk Hj.
    destruct (Z.leb_spec maxQuadsPerDrawCall (n - quadOffset s)) as [Hno | _];
      [unfold maxQuadsPerDrawCall in *; lia | done].
Qed.

End Iterations.

(** ** Sums of batch sizes *)

Lemma Zsum_app (l1 l2 : list Z) : Zsum (l1 ++ l2) = Zsum l1 + Zsum l2.
Proof.
  induction l1 as [| x l1 IH]; [done |].
  cbn [app Zsum foldr]. fold (Zsum (l1 ++ l2)) (Zsum l1). lia.
Qed.

Lemma Zsum_replicate (k : nat) (x : Z) : Zsum (replicate k x) = Z.of_nat k * x.
Proof.
  induction k as [| k IH]; [done |].
  cbn [replicate Zsum foldr]. fold (Zsum (replicate k x)). lia.
Qed.

Lemma Zsum_bounded (l : list Z) (bound : Z) :
  Forall (fun x => x <= bound) l -> Zsum l <= bound * Z.of_nat (length l).
Proof.
  induction 1 as [| x l Hx _ IH]; [simpl; lia |].
  cbn [Zsum foldr length]. fold (Zsum l). lia.
Qed.

Lemma spec_batches_sum (n : Z) : 0 <= n -> Zsum (spec_batches n).*2 = n.
Proof.
  intros Hn. rewrite spec_batches_sizes, Zsum_app, Zsum_replicate.
  destruct (Z.ltb_spec 0 (n mod maxQuadsPerDrawCall)); simpl; quads_lia.
Qed.

(** ** More about the circle path of one tile *)

Section TileFacts.
Context `{Externals}.
Implicit Types (s : BatchState) (d : TrianglesDraw) (arr : CollisionCircleArray)
  (painter : Painter) (layer : Layer) (tile : Tile) (bucket : SymbolBucket).

(** X7.  The draw calls of a tile cover its circles exactly, the quads of
    all calls adding up to [n], and no other way of cutting [n] circles
    into batches of at most 64 takes fewer calls. *)
Theorem batches_cover_all_with_fewest_calls (fuel : nat) painter layer translate
    translateAnchor (scratch : list f32) coord tile bucket
    (Hbucket : getBucket tile = Some bucket)
    (Hn : 0 <= arr_length (collisionCircleArrayTemp bucket))
    (Hscratch : Z.of_nat (length scratch) = maxQuadsPerDrawCall * 4)
    (Hfuel : arr_length (collisionCircleArrayTemp bucket) < Z.of_nat fuel) :
  exists s,
    circle_tile fuel painter layer translate translateAnchor scratch coord tile
    = Some s /\
    Zsum (draw_quads <$> drawn s) = arr_length (collisionCircleArrayTemp bucket) /\
    forall sizes : list Z,
      Forall (fun size => size <= maxQuadsPerDrawCall) sizes ->
      Zsum sizes = arr_length (collisionCircleArrayTemp bucket) ->
      (length (drawn s) <= length sizes)%nat.
Proof.
  destruct (circle_tile_spec fuel painter layer translate translateAnchor
              scratch coord tile bucket Hbucket Hn Hscratch Hfuel)
    as (s & Hrun & Hds & _ & _).
  exists s. split; [exact Hrun |]. split.
  - rewrite (batches_draw_quads _ _ _ _ _ _ Hds). by apply spec_batches_sum.
  - intros sizes Hsizes Hsum.
    pose proof (Zsum_bounded sizes maxQuadsPerDrawCall Hsizes) as Hbound.
    pose proof (spec_batches_length _ Hn) as Hcount.
    rewrite <- (Forall2_length _ _ _ Hds) in Hcount.
    unfold spec_draw_calls in Hcount. rewrite Hsum in Hbound.
    quads_lia.
Qed.

(** X6.  What a tile leaves in the scratch array past its leftover batch:
    for a tile of 64 circles or more, the tail of its last full batch; for
    a smaller tile, what the array held when the tile began. *)
Theorem stale_slots_after_tile (fuel : nat) painter layer translate
    translateAnchor (scratch : list f32) coord tile bucket
    (Hbucket : getBucket tile = Some bucket)
    (Hn : 0 <= arr_length (collisionCircleArrayTemp bucket))
    (Hscratch : Z.of_nat (length scratch) = maxQuadsPerDrawCall * 4)
    (Hfuel : arr_length (collisionCircleArrayTemp bucket) < Z.of_nat fuel) :
  exists s,
    circle_tile fuel painter layer translate translateAnchor scratch coord tile
    = Some s /\
    forall k j : Z,
      arr_length (collisionCircleArrayTemp bucket) mod maxQuadsPerDrawCall <= k
        < maxQuadsPerDrawCall ->
      0 <= j < 4 ->
      quadProperties s !! Z.to_nat (k * 4 + j)
      = if maxQuadsPerDrawCall <=? arr_length (collisionCircleArrayTemp bucket)
        then Some (circle_float (collisionCircleArrayTemp bucket)
                     ((maxQuadsPerDrawCall
                       * (arr_length (collisionCircleArrayTemp bucket)
                          / maxQuadsPerDrawCall - 1)
                       + k) * 4 + j))
        else scratch !! Z.to_nat (k * 4 + j).
Proof.
  unfold circle_tile. rewrite Hbucket.
  set (arr := collisionCircleArrayTemp bucket) in *.
  destruct (Z.eqb_spec (arr_length arr) 0) as [Hzero | Hpos].
  - exists (enter scratch). split; [done |]. intros k j Hk Hj.
    rewrite Hzero. by destruct (Z.leb_spec maxQuadsPerDrawCall 0).
  - destruct (while_loop_stale layer
                (tile_posMatrix painter coord tile translate translateAnchor)
                (reproject bucket painter) arr fuel (enter scratch))
      as (s & Hrun & Hstale); [done | simpl; lia | done | simpl; lia |].
    simpl in Hstale. rewrite Z.sub_0_r in Hstale.
    rewrite Hrun. simpl.
    exists (leftover layer
              (tile_posMatrix painter coord tile translate translateAnchor)
              (reproject bucket painter) s).
    split; [done |]. intros k j Hk Hj.
    assert (Hqp : quadProperties
                    (leftover layer
                       (tile_posMatrix painter coord tile translate translateAnchor)
                       (reproject bucket painter) s) = quadProperties s)
      by (unfold leftover; by destruct (negb (batchQuadIdx s =? 0))).
    rewrite Hqp. apply (Hstale k j Hk Hj).
Qed.

(** The last draw call of a tile was given the scratch array exactly as
    the tile leaves it: nothing is written after the last flush. *)
Lemma last_draw_carries_final_scratch (fuel : nat) painter layer translate
    translateAnchor (scratch : list f32) coord tile s d
    (Hrun : circle_tile fuel painter layer translate translateAnchor scratch
              coord tile = Some s)
    (Hlast : last (drawn s) = Some d) :
  draw_quadProperties d = quadProperties s.
Proof.
  unfold circle_tile in Hrun.
  destruct (getBucket tile) as [bucket |];
    [| injection Hrun as <-; discriminate Hlast].
  destruct (arr_length (collisionCircleArrayTemp bucket) =? 0);
    [injection Hrun as <-; discriminate Hlast |].
  destruct (while_loop fuel _ _ _ _ _) as [s1 |] eqn:Hloop; [| discriminate Hrun].
  simpl in Hrun. injection Hrun as <-.
  destruct (while_loop_top layer
              (tile_posMatrix painter coord tile translate translateAnchor)
              (reproject bucket painter) (collisionCircleArrayTemp bucket)
              scratch fuel (enter scratch) s1)
    as [Htop _]; [constructor | exact Hloop |].
  unfold leftover in *.
  destruct (Z.eqb_spec (batchQuadIdx s1) 0) as [Hzero | Hpart]; simpl in *.
  - by eapply loop_top_last_draw.
  - unfold emit in Hlast. rewrite last_snoc in Hlast. by injection Hlast as <-.
Qed.

(** X9.  The scratch array is never resized: a tile leaves it with the
    length it found, and a packing step changes only the slots of the
    quads it copies, those from [batchQuadIdx * 4] up to
    [(batchQuadIdx + batchSize) * 4], and no draw call already issued. *)
Theorem scratch_is_written_in_place (fuel : nat) painter layer translate
    translateAnchor (scratch : list f32) coord tile s arr (st : BatchState)
    (slot : nat)
    (Hrun : circle_tile fuel painter layer translate translateAnchor scratch
              coord tile = Some s)
    (Hb : 0 <= batchQuadIdx st <= maxQuadsPerDrawCall)
    (Hlen : Z.of_nat (length (quadProperties st)) = maxQuadsPerDrawCall * 4)
    (Hslot : ~ (batchQuadIdx st * 4 <= Z.of_nat slot
                < (batchQuadIdx st + batchSize arr st) * 4)) :
  length (quadProperties s) = length scratch /\
  length (quadProperties (pack arr st)) = length (quadProperties st) /\
  quadProperties (pack arr st) !! slot = quadProperties st !! slot /\
  drawn (pack arr st) = drawn st.
Proof.
  split; [| split; [| split]].
  - unfold circle_tile in Hrun.
    destruct (getBucket tile) as [bucket |]; [| by injection Hrun as <-].
    destruct (arr_length (collisionCircleArrayTemp bucket) =? 0);
      [by injection Hrun as <- |].
    destruct (while_loop fuel _ _ _ _ _) as [s1 |] eqn:Hloop; [| discriminate Hrun].
    simpl in Hrun. injection Hrun as <-.
    apply while_loop_length in Hloop. simpl in Hloop. rewrite <- Hloop.
    unfold leftover. by destruct (negb (batchQuadIdx s1 =? 0)).
  - by destruct (pack_fields arr st) as (_ & _ & Flen & _).
  - destruct (pack_data arr st Hb Hlen) as [_ Hold]. by apply Hold.
  - by destruct (pack_fields arr st) as (_ & _ & _ & Fdrawn & _).
Qed.

(** X5.  With the index template in the layer, every triangle inside the
    window of a draw call uses the vertices of one quad of the batch, and
    the four floats of that quad in the array given to the call are those
    of a circle of the tile: what the batch left stale is never drawn. *)
Theorem drawn_triangles_use_fresh_quads (fuel : nat) painter layer translate
    translateAnchor (scratch : list f32) coord tile bucket
    (Hbucket : getBucket tile = Some bucket)
    (Hn : 0 <= arr_length (collisionCircleArrayTemp bucket))
    (Hscratch : Z.of_nat (length scratch) = maxQuadsPerDrawCall * 4)
    (Hfuel : arr_length (collisionCircleArrayTemp bucket) < Z.of_nat fuel)
    (Htemplate : indexBuffer2 layer = Some indexBuffer2_array) :
  exists s,
    circle_tile fuel painter layer translate translateAnchor scratch coord tile
    = Some s /\
    forall d, d ∈ drawn s ->
      draw_indexBuffer d = Some indexBuffer2_array /\
      exists off : Z,
        0 <= off /\
        forall t : Z,
          primitiveOffset (draw_segment d) <= t
            < primitiveOffset (draw_segment d) + primitiveLength (draw_segment d) ->
          exists quad : Z,
            triangle_quad indexBuffer2_array t = Some quad /\
            0 <= quad < draw_quads d /\
            off + quad < arr_length (collisionCircleArrayTemp bucket) /\
            forall j : Z, 0 <= j < 4 ->
              draw_quadProperties d !! Z.to_nat (quad * 4 + j)
              = Some (circle_float (collisionCircleArrayTemp bucket)
                                   ((off + quad) * 4 + j)).
Proof.
  destruct (circle_tile_spec fuel painter layer translate translateAnchor
              scratch coord tile bucket Hbucket Hn Hscratch Hfuel)
    as (s & Hrun & Hds & _ & _).
  exists s. split; [exact Hrun |].
  intros d Hd. apply list_elem_of_lookup in Hd as [i Hi].
  destruct (Forall2_lookup_l _ _ _ _ _ Hds Hi) as ([off size] & Hw & Hbatch).
  assert (Hin : (off, size) ∈ spec_batches (arr_length (collisionCircleArrayTemp bucket)))
    by (apply list_elem_of_lookup; eauto).
  destruct (spec_batches_windows _ _ Hn Hin) as (Hsize & Hoff & Hend).
  simpl in Hsize, Hoff, Hend.
  pose proof (batch_of_draw_quads _ _ _ _ _ _ Hbatch) as Hquads. simpl in Hquads.
  destruct Hbatch as (_ & _ & _ & Hib & Hseg & _ & Hdata).
  split; [by rewrite Hib |].
  exists off. split; [exact Hoff |].
  intros t Ht. rewrite Hseg in Ht. simpl in Ht.
  exists (t / 2).
  split; [apply index_template_triangle_quad;
          unfold maxTrianglesPerDrawCall; quads_lia |].
  assert (Hquad : 0 <= t / 2 < size) by quads_lia.
  split; [by rewrite Hquads |]. split; [lia |].
  intros j Hj. by apply Hdata.
Qed.

(** X8.  The two paths test the bucket's data separately: a bucket without
    the requested collision-box buffers gets no box draw call and still
    all its circle batches; a bucket without circles gets no circle draw
    call and still its box draw call. *)
Theorem box_and_circle_paths_are_separate (fuel : nat) painter layer translate
    translateAnchor (isText : bool) (scratch : list f32) coord tile bucket
    (Hbucket : getBucket tile = Some bucket)
    (Hn : 0 <= arr_length (collisionCircleArrayTemp bucket))
    (Hscratch : Z.of_nat (length scratch) = maxQuadsPerDrawCall * 4)
    (Hfuel : arr_length (collisionCircleArrayTemp bucket) < Z.of_nat fuel) :
  exists s,
    circle_tile fuel painter layer translate translateAnchor scratch coord tile
    = Some s /\
    ((if isText then textCollisionBox bucket else iconCollisionBox bucket) = None ->
     box_tile painter translate translateAnchor isText coord tile = [] /\
     Z.of_nat (length (drawn s))
     = spec_draw_calls (arr_length (collisionCircleArrayTemp bucket))) /\
    (forall buffers,
       (if isText then textCollisionBox bucket else iconCollisionBox bucket)
       = Some buffers ->
       arr_length (collisionCircleArrayTemp bucket) = 0 ->
       drawn s = [] /\
       box_tile painter translate translateAnchor isText coord tile
       = [ {| box_posMatrix :=
                tile_posMatrix painter coord tile translate translateAnchor;
              box_buffers := buffers |} ]).
Proof.
  destruct (circle_tile_spec fuel painter layer translate translateAnchor
              scratch coord tile bucket Hbucket Hn Hscratch Hfuel)
    as (s & Hrun & Hds & _ & _).
  exists s. split; [exact Hrun |].
  pose proof (spec_batches_length _ Hn) as Hcount.
  rewrite <- (Forall2_length _ _ _ Hds) in Hcount.
  split.
  - intros Hnone. split; [| exact Hcount].
    unfold box_tile. by rewrite Hbucket, Hnone.
  - intros buffers Hsome Hzero. split.
    + rewrite Hzero in Hcount. destruct (drawn s); [done | discriminate Hcount].
    + unfold box_tile. by rewrite Hbucket, Hsome.
Qed.

End TileFacts.

(** ** More about a whole frame *)

Section FrameFacts.
Context `{Externals}.
Implicit Types (painter : Painter) (layer : Layer)
  (sourceCache : OverscaledTileID -> Tile) (coords : list OverscaledTileID).

Lemma tile_batches_count painter sourceCache layer translate translateAnchor
    coord (ds : list TrianglesDraw) :
  (forall bucket, getBucket (sourceCache coord) = Some bucket ->
     0 <= arr_length (collisionCircleArrayTemp bucket)) ->
  tile_batches painter sourceCache layer translate translateAnchor coord ds ->
  Z.of_nat (length ds) = tile_draw_count sourceCache coord.
Proof.
  unfold tile_batches, tile_draw_count. intros Hn Hds.
  destruct (getBucket (sourceCache coord)) as [bucket |]; [| by subst].
  rewrite (Forall2_length _ _ _ Hds). apply spec_batches_length. by apply Hn.
Qed.

Lemma frame_batches_count painter sourceCache layer translate translateAnchor
    coords (dss : list (list TrianglesDraw)) :
  (forall coord bucket, coord ∈ coords ->
     getBucket (sourceCache coord) = Some bucket ->
     0 <= arr_length (collisionCircleArrayTemp bucket)) ->
  Forall2 (tile_batches painter sourceCache layer translate translateAnchor)
          coords dss ->
  Z.of_nat (length (concat dss)) = Zsum (tile_draw_count sourceCache <$> coords).
Proof.
  intros Hn Hdss. induction Hdss as [| coord ds coords dss Hds _ IH]; [done |].
  cbn [concat fmap list_fmap Zsum foldr].
  fold (Zsum (tile_draw_count sourceCache <$> coords)).
  rewrite length_app, Nat2Z.inj_add, IH.
  - f_equal. eapply tile_batches_count; [| exact Hds].
    intros bucket Hbucket. apply (Hn coord bucket); [left | done].
  - intros c b Hc. apply Hn. by right.
Qed.

Lemma box_tiles_length painter sourceCache translate translateAnchor
    (isText : bool) coords :
  (length (box_tiles painter sourceCache translate translateAnchor isText coords)
   <= length coords)%nat.
Proof.
  unfold box_tiles. induction coords as [| coord coords IH]; [done |].
  cbn [flat_map]. rewrite length_app. cbn [length].
  assert (Hone : (length (box_tile painter translate translateAnchor isText coord
                            (sourceCache coord)) <= 1)%nat).
  { unfold box_tile. destruct (getBucket (sourceCache coord)) as [bucket |]; [| simpl; lia].
    destruct (if isText then textCollisionBox bucket else iconCollisionBox bucket);
      simpl; lia. }
  lia.
Qed.

(** X4.  A frame issues, for its circle path, the sum over its tiles of
    [ceil(n / 64)] draw calls, a tile without a bucket counting for none;
    for its box path at most one draw call a tile; and it ends with the
    scratch array at its [64 * 4] floats. *)
Theorem frame_draw_call_count (fuel : nat) painter sourceCache layer coords
    translate translateAnchor (isText : bool)
    (Hfuel : forall coord bucket, coord ∈ coords ->
       getBucket (sourceCache coord) = Some bucket ->
       0 <= arr_length (collisionCircleArrayTemp bucket) < Z.of_nat fuel) :
  exists frame,
    drawCollisionDebug fuel painter sourceCache layer coords translate
      translateAnchor isText = Some frame /\
    Z.of_nat (length (frame_triangles frame))
    = Zsum (tile_draw_count sourceCache <$> coords) /\
    (length (frame_lines frame) <= length coords)%nat /\
    Z.of_nat (length (frame_quadProperties frame)) = maxQuadsPerDrawCall * 4.
Proof.
  unfold drawCollisionDebug.
  destruct (circle_tiles_spec fuel painter sourceCache
              (ensure_indexBuffer2 (ensure_vertexBuffer2 layer))
              translate translateAnchor coords [] new_quadProperties [])
    as (dss & scratch' & log' & -> & Hdss & Hlen); [| exact Hfuel |].
  { unfold new_quadProperties. rewrite length_replicate.
    unfold maxQuadsPerDrawCall. lia. }
  simpl. eexists. split; [reflexivity |]. simpl.
  split; [| split; [apply box_tiles_length | exact Hlen]].
  eapply frame_batches_count; [| exact Hdss].
  intros c b Hc Hb. by apply (Hfuel c b).
Qed.

Lemma ensure_twice layer :
  ensure_indexBuffer2
    (ensure_vertexBuffer2 (ensure_indexBuffer2 (ensure_vertexBuffer2 layer)))
  = ensure_indexBuffer2 (ensure_vertexBuffer2 layer).
Proof. destruct layer as [[vb |] [ib |]]; reflexivity. Qed.

Lemma frame_layer_ensured (fuel : nat) painter sourceCache layer coords
    translate translateAnchor (isText : bool) frame :
  drawCollisionDebug fuel painter sourceCache layer coords translate
    translateAnchor isText = Some frame ->
  frame_layer frame = ensure_indexBuffer2 (ensure_vertexBuffer2 layer).
Proof.
  unfold drawCollisionDebug.
  destruct (circle_tiles _ _ _ _ _ _ _ _) as [[[draws scratch'] log'] |];
    [| discriminate].
  simpl. by intros [= <-].
Qed.

(** X2.  The template buffers are made once: a buffer the layer holds
    already is kept as it is, a missing one is set to the template, and a
    call on the layer that a call returned leaves that layer as it is and
    returns what the first call returned. *)
Theorem template_buffers_are_cached (fuel : nat) painter sourceCache layer coords
    translate translateAnchor (isText : bool) frame
    (Hrun : drawCollisionDebug fuel painter sourceCache layer coords translate
              translateAnchor isText = Some frame) :
  (forall vb, vertexBuffer2 layer = Some vb ->
     vertexBuffer2 (frame_layer frame) = Some vb) /\
  (forall ib, indexBuffer2 layer = Some ib ->
     indexBuffer2 (frame_layer frame) = Some ib) /\
  (vertexBuffer2 layer = None ->
     vertexBuffer2 (frame_layer frame) = Some vertexBuffer2_array) /\
  (indexBuffer2 layer = None ->
     indexBuffer2 (frame_layer frame) = Some indexBuffer2_array) /\
  drawCollisionDebug fuel painter sourceCache (frame_layer frame) coords
    translate translateAnchor isText = Some frame.
Proof.
  pose proof (frame_layer_ensured _ _ _ _ _ _ _ _ _ Hrun) as Hlayer.
  split; [| split; [| split; [| split]]].
  - intros vb Hvb. rewrite Hlayer. destruct layer as [vb' [ib |]];
      simpl in Hvb; subst; reflexivity.
  - intros ib Hib. rewrite Hlayer. destruct layer as [[vb |] ib'];
      simpl in Hib; subst; reflexivity.
  - intros Hvb. rewrite Hlayer. destruct layer as [vb' [ib |]];
      simpl in Hvb; subst; reflexivity.
  - intros Hib. rewrite Hlayer. destruct layer as [[vb |] ib'];
      simpl in Hib; subst; reflexivity.
  - rewrite Hlayer. unfold drawCollisionDebug in *. by rewrite ensure_twice.
Qed.

End FrameFacts.

Section FrameReturns.
Context `{Externals}.

Lemma drawCollisionDebug_returns (fuel : nat) (painter : Painter)
    (sourceCache : OverscaledTileID -> Tile) (layer : Layer)
    (coords : list OverscaledTileID) translate translateAnchor (isText : bool) :
  (forall c bucket, c ∈ coords -> getBucket (sourceCache c) = Some bucket ->
     (Z.to_nat (arr_length (collisionCircleArrayTemp bucket)) < fuel)%nat) ->
  is_Some (drawCollisionDebug fuel painter sourceCache layer coords translate
             translateAnchor isText).
Proof.
  intros Hfuel. unfold drawCollisionDebug.
  destruct (circle_tiles_return fuel painter sourceCache
              (ensure_indexBuffer2 (ensure_vertexBuffer2 layer))
              translate translateAnchor coords ([], new_quadProperties, []) Hfuel)
    as [[[draws scratch'] log] ->].
  simpl. by eexists.
Qed.

End FrameReturns.

(** ** The further statements on concrete tiles *)

Lemma model_frame_fuel (coord : @OverscaledTileID ZModel.ZExternals)
    (bucket : @SymbolBucket ZModel.ZExternals) :
  coord ∈ ZFrames.coords ->
  getBucket (ZFrames.cache coord) = Some bucket ->
  0 <= arr_length (collisionCircleArrayTemp bucket) < Z.of_nat 200.
Proof.
  intros Hc Hb. unfold ZFrames.coords in Hc.
  apply elem_of_cons in Hc as [-> | Hc];
    [| apply elem_of_cons in Hc as [-> | Hc];
       [| apply elem_of_cons in Hc as [-> | Hc]; [| by apply elem_of_nil in Hc]]].
  - change (getBucket (ZFrames.cache (ZFrames.coord_at 1)))
      with (Some (ZModel.bucket 130)) in Hb.
    injection Hb as <-. simpl. lia.
  - change (getBucket (ZFrames.cache (ZFrames.coord_at 3)))
      with (@None (@SymbolBucket ZModel.ZExternals)) in Hb.
    discriminate Hb.
  - change (getBucket (ZFrames.cache (ZFrames.coord_at 2)))
      with (Some (ZModel.bucket 64)) in Hb.
    injection Hb as <-. simpl. lia.
Qed.

Lemma model_frame_returns (layer : Layer) :
  is_Some (drawCollisionDebug 200 (ZModel.painter ZModel.identity) ZFrames.cache
             layer ZFrames.coords (1, 0) anchor_viewport true).
Proof.
  apply drawCollisionDebug_returns. intros c b Hc Hb.
  pose proof (model_frame_fuel c b Hc Hb). lia.
Qed.

Lemma template_buffers_are_cached_witness :
  exists frame,
    drawCollisionDebug 200 (ZModel.painter ZModel.identity) ZFrames.cache
      ZModel.fresh_layer ZFrames.coords (1, 0) anchor_viewport true = Some frame /\
    vertexBuffer2 (frame_layer frame) = Some vertexBuffer2_array /\
    indexBuffer2 (frame_layer frame) = Some indexBuffer2_array /\
    drawCollisionDebug 200 (ZModel.painter ZModel.identity) ZFrames.cache
      (frame_layer frame) ZFrames.coords (1, 0) anchor_viewport true = Some frame.
Proof.
  destruct (model_frame_returns ZModel.fresh_layer) as [frame Hrun].
  destruct (template_buffers_are_cached (H := ZModel.ZExternals) 200
              (ZModel.painter ZModel.identity) ZFrames.cache ZModel.fresh_layer
              ZFrames.coords (1, 0) anchor_viewport true frame Hrun)
    as (_ & _ & Hvb & Hib & Hagain).
  exists frame. split; [exact Hrun |]. split; [exact (Hvb eq_refl) |].
  split; [exact (Hib eq_refl) | exact Hagain].
Defined.

Lemma drawCollisionDebug_spec_witness :
  (forall coord bucket, coord ∈ ZFrames.coords ->
     getBucket (ZFrames.cache coord) = Some bucket ->
     0 <= arr_length (collisionCircleArrayTemp bucket) < Z.of_nat 200) /\
  exists frame (dss : list (list TrianglesDraw)),
    drawCollisionDebug 200 (ZModel.painter ZModel.identity) ZFrames.cache
      ZModel.fresh_layer ZFrames.coords (1, 0) anchor_viewport true = Some frame /\
    frame_triangles frame = concat dss /\
    length dss = 3%nat.
Proof.
  split; [exact model_frame_fuel |].
  destruct (drawCollisionDebug_spec (H := ZModel.ZExternals) 200
              (ZModel.painter ZModel.identity) ZFrames.cache ZModel.fresh_layer
              ZFrames.coords (1, 0) anchor_viewport true model_frame_fuel)
    as (frame & dss & Hrun & Htriangles & Hdss & _).
  exists frame, dss. split; [exact Hrun |]. split; [exact Htriangles |].
  apply Forall2_length in Hdss. rewrite <- Hdss. reflexivity.
Defined.

Lemma frame_draw_call_count_witness :
  (forall coord bucket, coord ∈ ZFrames.coords ->
     getBucket (ZFrames.cache coord) = Some bucket ->
     0 <= arr_length (collisionCircleArrayTemp bucket) < Z.of_nat 200) /\
  exists frame,
    drawCollisionDebug 200 (ZModel.painter ZModel.identity) ZFrames.cache
      ZModel.fresh_layer ZFrames.coords (1, 0) anchor_viewport true = Some frame /\
    Z.of_nat (length (frame_triangles frame)) = 4.
Proof.
  split; [exact model_frame_fuel |].
  destruct (frame_draw_call_count (H := ZModel.ZExternals) 200
              (ZModel.painter ZModel.identity) ZFrames.cache ZModel.fresh_layer
              ZFrames.coords (1, 0) anchor_viewport true model_frame_fuel)
    as (frame & Hrun & Hcount & _).
  exists frame. split; [exact Hrun |].
  assert (Hsum : Zsum (@tile_draw_count ZModel.ZExternals ZFrames.cache
                         <$> ZFrames.coords) = 4) by (vm_compute; reflexivity).
  rewrite Hcount. exact Hsum.
Defined.

Lemma drawn_triangles_use_fresh_quads_witness :
  indexBuffer2 ZModel.ready_layer = Some indexBuffer2_array /\
  exists s,
    ZModel.run (0, 0) 130 = Some s /\
    forall d, d ∈ drawn s ->
      draw_indexBuffer d = Some indexBuffer2_array /\
      forall t : Z,
        primitiveOffset (draw_segment d) <= t
          < primitiveOffset (draw_segment d) + primitiveLength (draw_segment d) ->
        exists quad : Z,
          triangle_quad indexBuffer2_array t = Some quad /\
          0 <= quad < draw_quads d.
Proof.
  assert (Htemplate : indexBuffer2 ZModel.ready_layer
                      = Some indexBuffer2_array) by reflexivity.
  assert (Hn : 0 <= arr_length (collisionCircleArrayTemp (ZModel.bucket 130)))
    by (simpl; lia).
  assert (Hscratch : Z.of_nat (length (@new_quadProperties ZModel.ZExternals))
                     = maxQuadsPerDrawCall * 4) by (vm_compute; reflexivity).
  assert (Hfuel : arr_length (collisionCircleArrayTemp (ZModel.bucket 130))
                  < Z.of_nat 200) by (simpl; lia).
  split; [exact Htemplate |].
  destruct (drawn_triangles_use_fresh_quads (H := ZModel.ZExternals) 200
              (ZModel.painter ZModel.identity) ZModel.ready_layer (0, 0)
              anchor_viewport new_quadProperties ZModel.coord (ZModel.tile 130)
              (ZModel.bucket 130) eq_refl Hn Hscratch Hfuel Htemplate)
    as (s & Hrun & Hall).
  exists s. split; [exact Hrun |].
  intros d Hd. destruct (Hall d Hd) as (Hib & off & _ & Htri).
  split; [exact Hib |].
  intros t Ht. destruct (Htri t Ht) as (quad & Hquad & Hrange & _).
  exists quad. split; [exact Hquad | exact Hrange].
Defined.

Lemma stale_slots_after_tile_witness :
  0 <= arr_length (collisionCircleArrayTemp (ZModel.bucket 130)) /\
  exists s,
    ZModel.run (0, 0) 130 = Some s /\
    quadProperties s !! Z.to_nat (5 * 4 + 2) = Some 1278.
Proof.
  assert (Hn : 0 <= arr_length (collisionCircleArrayTemp (ZModel.bucket 130)))
    by (simpl; lia).
  assert (Hscratch : Z.of_nat (length (@new_quadProperties ZModel.ZExternals))
                     = maxQuadsPerDrawCall * 4) by (vm_compute; reflexivity).
  assert (Hfuel : arr_length (collisionCircleArrayTemp (ZModel.bucket 130))
                  < Z.of_nat 200) by (simpl; lia).
  split; [exact Hn |].
  destruct (stale_slots_after_tile (H := ZModel.ZExternals) 200
              (ZModel.painter ZModel.identity) ZModel.ready_layer (0, 0)
              anchor_viewport new_quadProperties ZModel.coord (ZModel.tile 130)
              (ZModel.bucket 130) eq_refl Hn Hscratch Hfuel)
    as (s & Hrun & Hstale).
  exists s. split; [exact Hrun |].
  assert (Hk : arr_length (collisionCircleArrayTemp (ZModel.bucket 130))
                 mod maxQuadsPerDrawCall <= 5 < maxQuadsPerDrawCall)
    by (vm_compute; split; [discriminate | reflexivity]).
  assert (Hj : 0 <= 2 < 4) by lia.
  refine (eq_trans (Hstale 5 2 Hk Hj) _).
  vm_compute. reflexivity.
Defined.

Lemma batches_cover_all_with_fewest_calls_witness :
  0 <= arr_length (collisionCircleArrayTemp (ZModel.bucket 130)) /\
  exists s,
    ZModel.run (0, 0) 130 = Some s /\
    Zsum (draw_quads <$> drawn s) = 130 /\
    (length (drawn s) <= length [50; 50; 30]%Z)%nat.
Proof.
  assert (Hn : 0 <= arr_length (collisionCircleArrayTemp (ZModel.bucket 130)))
    by (simpl; lia).
  assert (Hscratch : Z.of_nat (length (@new_quadProperties ZModel.ZExternals))
                     = maxQuadsPerDrawCall * 4) by (vm_compute; reflexivity).
  assert (Hfuel : arr_length (collisionCircleArrayTemp (ZModel.bucket 130))
                  < Z.of_nat 200) by (simpl; lia).
  split; [exact Hn |].
  destruct (batches_cover_all_with_fewest_calls (H := ZModel.ZExternals) 200
              (ZModel.painter ZModel.identity) ZModel.ready_layer (0, 0)
              anchor_viewport new_quadProperties ZModel.coord (ZModel.tile 130)
              (ZModel.bucket 130) eq_refl Hn Hscratch Hfuel)
    as (s & Hrun & Hsum & Hfewest).
  exists s. split; [exact Hrun |]. split; [exact Hsum |].
  apply Hfewest; [| reflexivity].
  repeat constructor; unfold maxQuadsPerDrawCall; lia.
Defined.

Lemma box_and_circle_paths_are_separate_witness :
  iconCollisionBox (ZModel.bucket 130) = None /\
  exists s,
    ZModel.run (0, 0) 130 = Some s /\
    box_tile (ZModel.painter ZModel.identity) (0, 0) anchor_viewport false
      ZModel.coord (ZModel.tile 130) = [] /\
    Z.of_nat (length (drawn s)) = 3.
Proof.
  assert (Hn : 0 <= arr_length (collisionCircleArrayTemp (ZModel.bucket 130)))
    by (simpl; lia).
  assert (Hscratch : Z.of_nat (length (@new_quadProperties ZModel.ZExternals))
                     = maxQuadsPerDrawCall * 4) by (vm_compute; reflexivity).
  assert (Hfuel : arr_length (collisionCircleArrayTemp (ZModel.bucket 130))
                  < Z.of_nat 200) by (simpl; lia).
  split; [reflexivity |].
  destruct (box_and_circle_paths_are_separate (H := ZModel.ZExternals) 200
              (ZModel.painter ZModel.identity) ZModel.ready_layer (0, 0)
              anchor_viewport false new_quadProperties ZModel.coord
              (ZModel.tile 130) (ZModel.bucket 130) eq_refl Hn Hscratch Hfuel)
    as (s & Hrun & Hnone & _).
  destruct (Hnone eq_refl) as [Hbox Hcount].
  exists s. split; [exact Hrun |]. split; [exact Hbox | exact Hcount].
Defined.

Lemma scratch_is_written_in_place_witness :
  let arr := ZModel.circles 2 in
  let st := @enter ZModel.ZExternals new_quadProperties in
  ~ (batchQuadIdx st * 4 <= Z.of_nat 10 < (batchQuadIdx st + batchSize arr st) * 4) /\
  exists s,
    ZModel.run (0, 0) 2 = Some s /\
    length (quadProperties s) = length (@new_quadProperties ZModel.ZExternals) /\
    quadProperties (pack arr st) !! 10%nat = quadProperties st !! 10%nat.
Proof.
  intros arr st.
  assert (Hslot : ~ (batchQuadIdx st * 4 <= Z.of_nat 10
                     < (batchQuadIdx st + batchSize arr st) * 4)).
  { intros [_ Hlt]. vm_compute in Hlt. discriminate Hlt. }
  assert (Hb : 0 <= batchQuadIdx st <= maxQuadsPerDrawCall)
    by (vm_compute; split; discriminate).
  assert (Hlen : Z.of_nat (length (quadProperties st)) = maxQuadsPerDrawCall * 4)
    by (vm_compute; reflexivity).
  split; [exact Hslot |].
  destruct (model_run_two (0, 0)) as (s & _ & Hrun & _).
  destruct (scratch_is_written_in_place (H := ZModel.ZExternals) 200
              (ZModel.painter ZModel.identity) ZModel.ready_layer (0, 0)
              anchor_viewport new_quadProperties ZModel.coord (ZModel.tile 2)
              s arr st 10%nat Hrun Hb Hlen Hslot) as (Hsame & _ & Hkept & _).
  exists s. split; [exact Hrun |]. split; [exact Hsame | exact Hkept].
Defined.

Lemma iterations_start_empty_batches_witness :
  let arr := ZModel.circles 130 in
  let s := @loop_body ZModel.ZExternals ZModel.ready_layer ZModel.identity
             ZModel.identity arr (enter new_quadProperties) in
  @loop_top ZModel.ZExternals ZModel.ready_layer ZModel.identity ZModel.identity
    arr new_quadProperties s /\
  loop_guard arr s = true /\
  batchQuadIdx s = 0 /\
  quadOffset s = maxQuadsPerDrawCall * Z.of_nat (length (drawn s)).
Proof.
  intros arr s.
  assert (Htop : @loop_top ZModel.ZExternals ZModel.ready_layer ZModel.identity
                   ZModel.identity arr new_quadProperties s).
  { apply loop_top_next; [apply loop_top_enter | reflexivity]. }
  assert (Hguard : loop_guard arr s = true) by (vm_compute; reflexivity).
  destruct (iterations_start_empty_batches (H := ZModel.ZExternals)
              ZModel.ready_layer ZModel.identity ZModel.identity arr
              new_quadProperties s Htop Hguard) as (Hb & Hq & _).
  split; [exact Htop |]. split; [exact Hguard |]. split; [exact Hb | exact Hq].
Defined.

(** ** What a draw call is given past its batch *)

Lemma length_full_batches (count : nat) (off : Z) :
  length (full_batches count off) = count.
Proof.
  revert off. induction count as [| count IH]; intros off; [done |].
  cbn [full_batches length]. by rewrite IH.
Qed.

(** A batch of fewer than 64 circles is the leftover batch, the last one. *)
Lemma spec_batches_partial (n : Z) (i : nat) (off size : Z) :
  spec_batches n !! i = Some (off, size) ->
  size < maxQuadsPerDrawCall ->
  off = n / maxQuadsPerDrawCall * maxQuadsPerDrawCall /\
  size = n mod maxQuadsPerDrawCall /\
  length (spec_batches n) = S i.
Proof.
  unfold spec_batches. intros Hw Hsize.
  rewrite length_app, length_full_batches.
  apply lookup_app_Some in Hw as [Hfull | [Hi Hrest]].
  - apply list_elem_of_lookup_2, full_batches_windows in Hfull as (Hfull & _).
    simpl in Hfull. lia.
  - rewrite length_full_batches in Hi, Hrest.
    destruct (0 <? n mod maxQuadsPerDrawCall); [| by rewrite lookup_nil in Hrest].
    apply list_lookup_singleton_Some in Hrest as [Hzero Heq].
    injection Heq as <- <-. simpl. split; [done |]. split; [done | lia].
Qed.

Section Payloads.
Context `{Externals}.
Implicit Types (s : BatchState) (d : TrianglesDraw) (painter : Painter)
  (layer : Layer) (tile : Tile) (bucket : SymbolBucket).

(** What a tile leaves in the scratch array past its leftover batch, told
    from the first circle of that batch, circle [n / 64 * 64]. *)
Lemma leftover_tail (fuel : nat) painter layer translate translateAnchor
    (scratch : list f32) coord tile bucket :
  getBucket tile = Some bucket ->
  0 <= arr_length (collisionCircleArrayTemp bucket) ->
  Z.of_nat (length scratch) = maxQuadsPerDrawCall * 4 ->
  arr_length (collisionCircleArrayTemp bucket) < Z.of_nat fuel ->
  exists s,
    circle_tile fuel painter layer translate translateAnchor scratch coord tile
    = Some s /\
    forall k j : Z,
      arr_length (collisionCircleArrayTemp bucket) mod maxQuadsPerDrawCall <= k
        < maxQuadsPerDrawCall ->
      0 <= j < 4 ->
      quadProperties s !! Z.to_nat (k * 4 + j)
      = if maxQuadsPerDrawCall
           <=? arr_length (collisionCircleArrayTemp bucket)
               / maxQuadsPerDrawCall * maxQuadsPerDrawCall
        then Some (circle_float (collisionCircleArrayTemp bucket)
                     ((arr_length (collisionCircleArrayTemp bucket)
                       / maxQuadsPerDrawCall * maxQuadsPerDrawCall
                       - maxQuadsPerDrawCall + k) * 4 + j))
        else scratch !! Z.to_nat (k * 4 + j).
Proof.
  intros Hbucket Hn Hscratch Hfuel.
  unfold circle_tile. rewrite Hbucket.
  set (arr := collisionCircleArrayTemp bucket) in *.
  destruct (Z.eqb_spec (arr_length arr) 0) as [Hzero | Hpos].
  - exists (enter scratch). split; [done |]. intros k j Hk Hj.
    rewrite Hzero. by vm_compute.
  - destruct (while_loop_stale layer
                (tile_posMatrix painter coord tile translate translateAnchor)
                (reproject bucket painter) arr fuel (enter scratch))
      as (s & Hrun & Hstale); [done | simpl; lia | done | simpl; lia |].
    simpl in Hstale. rewrite Z.sub_0_r in Hstale.
    rewrite Hrun. simpl.
    exists (leftover layer
              (tile_posMatrix painter coord tile translate translateAnchor)
              (reproject bucket painter) s).
    split; [done |]. intros k j Hk Hj.
    assert (Hqp : quadProperties
                    (leftover layer
                       (tile_posMatrix painter coord tile translate translateAnchor)
                       (reproject bucket painter) s) = quadProperties s)
      by (unfold leftover; by destruct (negb (batchQuadIdx s =? 0))).
    rewrite Hqp, (Hstale k j Hk Hj).
    destruct (Z.leb_spec maxQuadsPerDrawCall (arr_length arr)) as [Hfull | Hsmall];
      destruct (Z.leb_spec maxQuadsPerDrawCall
                  (arr_length arr / maxQuadsPerDrawCall * maxQuadsPerDrawCall))
        as [Hfull' | Hsmall']; try quads_lia; [| done].
    do 2 f_equal. quads_lia.
Qed.

(** C5, as the code has it.  Every draw call of the circle path is given
    the whole scratch array of [64 * 4] floats.  The batch of
    [batchQuadIdx] quads, between 1 and 64, is its first
    [batchQuadIdx * 4] floats, which are the floats of the circles
    [off, ..., off + batchQuadIdx - 1] of the tile.  The quads from
    [batchQuadIdx] to 63 are stale: quad [k] holds circle [off - 64 + k],
    of the batch before, when [off >= 64], and what the scratch array held
    when the tile began otherwise.  The segment of the call is
    [simpleSegment(0, 0, batchQuadIdx * 4, batchQuadIdx * 2)]. *)
Theorem flushed_batch_payload (fuel : nat) painter layer translate
    translateAnchor (scratch : list f32) coord tile bucket
    (Hbucket : getBucket tile = Some bucket)
    (Hn : 0 <= arr_length (collisionCircleArrayTemp bucket))
    (Hscratch : Z.of_nat (length scratch) = maxQuadsPerDrawCall * 4)
    (Hfuel : arr_length (collisionCircleArrayTemp bucket) < Z.of_nat fuel) :
  exists s,
    circle_tile fuel painter layer translate translateAnchor scratch coord tile
    = Some s /\
    forall d, d ∈ drawn s ->
      exists batchQuadIdx off : Z,
        1 <= batchQuadIdx <= maxQuadsPerDrawCall /\
        0 <= off /\
        off + batchQuadIdx <= arr_length (collisionCircleArrayTemp bucket) /\
        Z.of_nat (length (draw_quadProperties d)) = maxQuadsPerDrawCall * 4 /\
        (forall k j : Z, 0 <= k < batchQuadIdx -> 0 <= j < 4 ->
           draw_quadProperties d !! Z.to_nat (k * 4 + j)
           = Some (circle_float (collisionCircleArrayTemp bucket)
                                ((off + k) * 4 + j))) /\
        (forall k j : Z, batchQuadIdx <= k < maxQuadsPerDrawCall -> 0 <= j < 4 ->
           draw_quadProperties d !! Z.to_nat (k * 4 + j)
           = if maxQuadsPerDrawCall <=? off
             then Some (circle_float (collisionCircleArrayTemp bucket)
                          ((off - maxQuadsPerDrawCall + k) * 4 + j))
             else scratch !! Z.to_nat (k * 4 + j)) /\
        draw_segment d = simpleSegment 0 0 (batchQuadIdx * 4) (batchQuadIdx * 2).
Proof.
  destruct (circle_tile_spec fuel painter layer translate translateAnchor
              scratch coord tile bucket Hbucket Hn Hscratch Hfuel)
    as (s & Hrun & Hds & _ & _).
  destruct (leftover_tail fuel painter layer translate translateAnchor
              scratch coord tile bucket Hbucket Hn Hscratch Hfuel)
    as (s' & Hrun' & Htail).
  rewrite Hrun in Hrun'. injection Hrun' as <-.
  exists s. split; [exact Hrun |].
  intros d Hd. apply list_elem_of_lookup in Hd as [i Hi].
  destruct (Forall2_lookup_l _ _ _ _ _ Hds Hi) as ([off size] & Hw & Hbatch).
  assert (Hin : (off, size) ∈ spec_batches (arr_length (collisionCircleArrayTemp bucket)))
    by (apply list_elem_of_lookup; eauto).
  destruct (spec_batches_windows _ _ Hn Hin) as (Hsize & Hoff & Hend).
  simpl in Hsize, Hoff, Hend.
  destruct Hbatch as (_ & _ & _ & _ & Hseg & Hlen & Hdata).
  exists size, off.
  split; [exact Hsize |]. split; [exact Hoff |]. split; [exact Hend |].
  split; [exact Hlen |]. split; [exact Hdata |]. split; [| exact Hseg].
  intros k j Hk Hj.
  assert (Hpartial : size < maxQuadsPerDrawCall) by lia.
  destruct (spec_batches_partial _ _ _ _ Hw Hpartial) as (-> & -> & Hcount).
  assert (Hlast : last (drawn s) = Some d).
  { rewrite last_lookup, (Forall2_length _ _ _ Hds), Hcount. exact Hi. }
  rewrite (last_draw_carries_final_scratch _ _ _ _ _ _ _ _ _ _ Hrun Hlast).
  by apply Htail.
Qed.

End Payloads.

Lemma flushed_batch_payload_witness :
  0 <= arr_length (collisionCircleArrayTemp (ZModel.bucket 130)) /\
  exists s,
    ZModel.run (0, 0) 130 = Some s /\
    forall d, d ∈ drawn s ->
      Z.of_nat (length (draw_quadProperties d)) = maxQuadsPerDrawCall * 4 /\
      exists batchQuadIdx off : Z,
        1 <= batchQuadIdx <= maxQuadsPerDrawCall /\
        draw_segment d = simpleSegment 0 0 (batchQuadIdx * 4) (batchQuadIdx * 2) /\
        (forall k j : Z, batchQuadIdx <= k < maxQuadsPerDrawCall -> 0 <= j < 4 ->
           draw_quadProperties d !! Z.to_nat (k * 4 + j)
           = if maxQuadsPerDrawCall <=? off
             then Some (circle_float (ZModel.circles 130)
                          ((off - maxQuadsPerDrawCall + k) * 4 + j))
             else @new_quadProperties ZModel.ZExternals !! Z.to_nat (k * 4 + j)).
Proof.
  assert (Hn : 0 <= arr_length (collisionCircleArrayTemp (ZModel.bucket 130)))
    by (simpl; lia).
  assert (Hscratch : Z.of_nat (length (@new_quadProperties ZModel.ZExternals))
                     = maxQuadsPerDrawCall * 4) by (vm_compute; reflexivity).
  assert (Hfuel : arr_length (collisionCircleArrayTemp (ZModel.bucket 130))
                  < Z.of_nat 200) by (simpl; lia).
  split; [exact Hn |].
  destruct (flushed_batch_payload (H := ZModel.ZExternals) 200
              (ZModel.painter ZModel.identity) ZModel.ready_layer (0, 0)
              anchor_viewport new_quadProperties ZModel.coord (ZModel.tile 130)
              (ZModel.bucket 130) eq_refl Hn Hscratch Hfuel)
    as (s & Hrun & Hall).
  exists s. split; [exact Hrun |].
  intros d Hd.
  destruct (Hall d Hd) as (b & off & Hb & _ & _ & Hlen & _ & Hstale & Hseg).
  split; [exact Hlen |]. exists b, off.
  split; [exact Hb |]. split; [exact Hseg | exact Hstale].
Defined.

(** ** One scratch array for all the tiles of a frame *)

Section SharedScratch.
Context `{Externals}.
Implicit Types (s : BatchState) (d : TrianglesDraw) (painter : Painter)
  (layer : Layer) (tile : Tile) (sourceCache : OverscaledTileID -> Tile)
  (coords : list OverscaledTileID).






End SharedScratch.

